(** * Export dashboard: the filter engine and the aggregation pipeline

    A shallow embedding of [dashboard.py].  The program is a script over a
    pandas [DataFrame]; the frame is modelled as a list of column names
    together with a list of typed rows, a missing cell ([NaN], [NaT]) as
    [None], and a timestamp as a number of nanoseconds since the epoch.
    The frame is taken after line 50, where [SB DATE] has been converted to
    timestamps.

    A numeric column has a dtype, float64 or int64, and pandas sums and
    orders it with that dtype's arithmetic.  The dtype is an interface here
    ([Numeric]): the functions are written once over it, and the int64
    instance, with its wrap-around, is written out.  The functions under
    [@st.cache_data] are modelled with their cache, which is state that
    outlives a run of the script.  Subscripting a frame by a column it does
    not have raises [KeyError], the only error of the modelled code; what
    the display calls ([st.*], [px.*]) do with the tables is not modelled. *)

From Stdlib Require Import ZArith String.
From stdpp Require Import base tactics decidable option list list_numbers strings.
From stdpp Require Import sorting.

Local Open Scope Z_scope.

(** ** Numeric dtypes *)

(** What the script asks of the dtype of a numeric column: the sum of a
    non-empty series ([Series.sum]), the sum of one group
    ([groupby(...).sum()], computed by another routine), the zero an empty
    sum gives, and the order [nlargest] sorts by. *)
Class Numeric (N : Type) := {
  num_eq_dec :: EqDecision N;
  num_zero : N;
  num_sum : list N → N;
  num_group_sum : list N → N;
  num_leb : N → N → bool
}.

(** int64: addition wraps around at 2^63. *)
Definition wrap64 (z : Z) : Z := (z + 2 ^ 63) `mod` 2 ^ 64 - 2 ^ 63.

Definition int64_sum (l : list Z) : Z :=
  foldl (λ acc x, wrap64 (acc + x)) 0 l.

#[global] Instance int64 : Numeric Z := {|
  num_zero := 0;
  num_sum := int64_sum;
  num_group_sum := int64_sum;
  num_leb := Z.leb
|}.

(** ** The sample Streamlit hashes of a large frame *)

(** [df.sample(n=10000, random_state=0)]: the positions of the rows that
    are drawn from a frame of a given length. *)
Class Sampler := sample_positions : nat → list nat.

(** ** Data model *)

Inductive column :=
  | SB_DATE
  | PORT_OF_LOADING
  | COUNTRY_OF_DESTINATION
  | PORT_OF_DISCHARGE
  | HSN_DESCRIPTION
  | FOB
  | QUANTITY.

#[global] Instance column_eq_dec : EqDecision column.
Proof. solve_decision. Defined.

(** What the sidebar widgets return: two calendar days (as day numbers since
    the epoch, [st.sidebar.date_input] returns a [datetime.date]) and three
    lists of selected values ([st.sidebar.multiselect]). *)
Record FilterSpec := mkFilterSpec {
  start_date : Z;
  end_date : Z;
  ports : list (option string);
  countries : list (option string);
  discharge_ports : list (option string)
}.

(** ** Errors *)

Inductive result (A : Type) :=
  | Ok (a : A)
  | KeyError (c : column).
Arguments Ok {A} a.
Arguments KeyError {A} c.

#[global] Instance result_ret : MRet result := fun A a => Ok a.
#[global] Instance result_bind : MBind result := fun A B f m =>
  match m with
  | Ok a => f a
  | KeyError c => KeyError c
  end.

Definition raises {A} (m : result A) : Prop :=
  match m with Ok _ => False | KeyError _ => True end.

(** [series.mean()] is a float64 whatever the dtype: [NaN] when no cell is
    left, and otherwise the mean of the cells, which is not computed here. *)
Inductive mean_value (N : Type) :=
  | NaN
  | mean_of (cells : list N).
Arguments NaN {N}.
Arguments mean_of {N} cells.

Definition NS_PER_DAY : Z := 86400000000000.

(** [pd.to_datetime(d)] for a [datetime.date]: midnight of that day. *)
Definition to_datetime (d : Z) : Z := d * NS_PER_DAY.

(** [ts.date()]: the calendar day of a timestamp. *)
Definition date_of (ts : Z) : Z := ts `div` NS_PER_DAY.

(** [series >= t] and [series <= t]; a comparison with [NaT] is [False]. *)
Definition series_ge (s : list (option Z)) (t : Z) : list bool :=
  (λ x, match x with Some v => bool_decide (t ≤ v) | None => false end) <$> s.

Definition series_le (s : list (option Z)) (t : Z) : list bool :=
  (λ x, match x with Some v => bool_decide (v ≤ t) | None => false end) <$> s.

(** [a & b] on boolean series. *)
Definition series_and (a b : list bool) : list bool := zip_with andb a b.

(** [series.isin(values)]; a missing cell matches a missing value. *)
Definition isin (s : list (option string)) (values : list (option string))
    : list bool :=
  (λ v, bool_decide (v ∈ values)) <$> s.

(** [series.dropna()] *)
Definition dropna {A} (s : list (option A)) : list A := omap id s.

(** [series.min()] and [series.max()], which skip [NaT]; the result is
    [NaT] when nothing is left. *)
Definition series_min (s : list (option Z)) : option Z :=
  match dropna s with
  | [] => None
  | t :: ts => Some (foldr Z.min t ts)
  end.

Definition series_max (s : list (option Z)) : option Z :=
  match dropna s with
  | [] => None
  | t :: ts => Some (foldr Z.max t ts)
  end.

(** [series.unique()]: the distinct values in order of first appearance. *)
Definition unique {A} `{EqDecision A} (l : list A) : list A :=
  reverse (remove_dups (reverse l)).

(** A stable insertion sort; [leb x y] says that [x] may stand before [y]. *)
Fixpoint insert_sorted {A} (leb : A → A → bool) (x : A) (l : list A) : list A :=
  match l with
  | [] => [x]
  | y :: l' => if leb x y then x :: l else y :: insert_sorted leb x l'
  end.

Definition sort_by {A} (leb : A → A → bool) (l : list A) : list A :=
  foldr (insert_sorted leb) [] l.

(** [series.nunique()]: [unique], then the missing value is removed, then
    the length is taken. *)
Definition nunique (s : list (option string)) : nat :=
  length (dropna (unique s)).

(** [series.nlargest(n)]: the first [n] entries in descending order of the
    value, ties in their original order ([keep='first']). *)
Definition nlargest {K V} (vleb : V → V → bool) (n : nat) (s : list (K * V))
    : list (K * V) :=
  take n (sort_by (λ a b, vleb b.2 a.2) s).

(** [series.value_counts()]: the count of each non-missing value, in
    descending order of the count. *)
Definition value_counts (s : list (option string)) : list (string * nat) :=
  sort_by (λ a b, Nat.leb b.2 a.2)
    ((λ v, (v, length (filter (λ x, x = Some v) s))) <$> unique (dropna s)).

Definition pair_leb {A B} (aleb : A → A → bool) (aeqb : A → A → bool)
    (bleb : B → B → bool) (x y : A * B) : bool :=
  if aeqb x.1 y.1 then bleb x.2 y.2 else aleb x.1 y.1.

Definition key2_leb : Z * string → Z * string → bool :=
  pair_leb Z.leb Z.eqb String.leb.

(** The bins of [pd.Grouper(key='SB DATE', freq='D')]: rows without a date
    are dropped, the first bin starts at midnight of the day of the
    earliest timestamp, the last one at midnight of the day of the latest,
    every bin is one day long and closed on the left, and each bin in
    between is present whether or not a row falls into it.  A column
    without any date has no bins; [main] passes none but the empty one,
    its date filter having dropped the rows without a date. *)
Definition daily_bins (ax : list (option Z)) : list Z :=
  match series_min ax, series_max ax with
  | Some lo, Some hi =>
      to_datetime <$> seqZ (date_of lo) (date_of hi - date_of lo + 1)
  | _, _ => []
  end.

Definition in_bin (edge : Z) (x : option Z) : Prop :=
  match x with
  | Some t => edge ≤ t ∧ t < edge + NS_PER_DAY
  | None => False
  end.

#[global] Instance in_bin_dec edge x : Decision (in_bin edge x).
Proof. destruct x; simpl; apply _. Defined.

(** Streamlit hashes a frame of 50000 rows or more by a sample of it. *)
Definition PANDAS_ROWS_LARGE : Z := 50000.
Definition PANDAS_SAMPLE_SIZE : Z := 10000.

(** ** The frame, the filter engine and the aggregation pipeline *)

Section model.
Context {N : Type} {dtype : Numeric N} {sampler : Sampler}.

Record Row := mkRow {
  sb_date : option Z;
  port_of_loading : option string;
  country_of_destination : option string;
  port_of_discharge : option string;
  hsn_description : option string;
  fob : option N;
  quantity : option N
}.

#[global] Instance Row_eq_dec : EqDecision Row.
Proof. solve_decision. Defined.

Record DataFrame := mkDataFrame {
  columns : list column;
  rows : list Row
}.

(** *** pandas primitives on a frame *)

(** ['c' in df.columns] *)
Definition in_columns (c : column) (df : DataFrame) : bool :=
  bool_decide (c ∈ columns df).

(** [df['c']]: the series of the cells of column [c], or [KeyError]. *)
Definition getitem {A} (df : DataFrame) (c : column) (cell : Row → A)
    : result (list A) :=
  if in_columns c df then Ok (cell <$> rows df) else KeyError c.

(** [df[mask]]: the rows at which the boolean series is [True], in order. *)
Fixpoint select_rows (rs : list Row) (mask : list bool) : list Row :=
  match rs, mask with
  | r :: rs', b :: mask' =>
      if b then r :: select_rows rs' mask' else select_rows rs' mask'
  | _, _ => []
  end.

Definition getitem_mask (df : DataFrame) (mask : list bool) : DataFrame :=
  {| columns := columns df; rows := select_rows (rows df) mask |}.

(** *** The filter engine: [main], lines 56-78 *)

(** Lines 56-60, the date range. *)
Definition filter_date_range (start_d end_d : Z) (df : DataFrame)
    : result DataFrame :=
  if in_columns SB_DATE df then
    lo ← getitem df SB_DATE sb_date;
    hi ← getitem df SB_DATE sb_date;
    Ok (getitem_mask df
          (series_and (series_ge lo (to_datetime start_d))
                      (series_le hi (to_datetime end_d))))
  else Ok df.

(** Lines 63-66, 69-72 and 75-78: one multiselect on one column. *)
Definition filter_isin (c : column) (cell : Row → option string)
    (selected : list (option string)) (df : DataFrame) : result DataFrame :=
  if in_columns c df then
    match selected with
    | [] => Ok df
    | _ :: _ => s ← getitem df c cell; Ok (getitem_mask df (isin s selected))
    end
  else Ok df.

Definition main_filters (df : DataFrame) (fs : FilterSpec) : result DataFrame :=
  df1 ← filter_date_range (start_date fs) (end_date fs) df;
  df2 ← filter_isin PORT_OF_LOADING port_of_loading (ports fs) df1;
  df3 ← filter_isin COUNTRY_OF_DESTINATION country_of_destination (countries fs) df2;
  filter_isin PORT_OF_DISCHARGE port_of_discharge (discharge_ports fs) df3.

(** Lines 64, 70 and 76: the options a multiselect offers are the distinct
    values of its column in the frame as the filters before it left it. *)
Definition multiselect_options (c : column) (cell : Row → option string)
    (df : DataFrame) : result (list (option string)) :=
  s ← getitem df c cell; Ok (unique s).

(** *** Reductions of a numeric column *)

(** [series.sum()]: missing cells are skipped, the empty sum is 0. *)
Definition series_sum (s : list (option N)) : N :=
  match dropna s with
  | [] => num_zero
  | x :: l => num_sum (x :: l)
  end.

(** The sum of one group of [groupby(...).sum()]: missing cells are
    skipped, a group without any cell sums to 0. *)
Definition group_sum (s : list (option N)) : N :=
  match dropna s with
  | [] => num_zero
  | x :: l => num_group_sum (x :: l)
  end.

(** [series.mean()]: missing cells are skipped; [NaN] when nothing is
    left. *)
Definition series_mean (s : list (option N)) : mean_value N :=
  match dropna s with
  | [] => NaN
  | x :: l => mean_of (x :: l)
  end.

(** *** Groups *)

(** The sorted group keys of [df.groupby(keys)]: rows with a missing key
    are dropped ([dropna=True]) and the keys come in ascending order
    ([sort=True]). *)
Definition group_keys {K} `{EqDecision K} (kleb : K → K → bool)
    (key : Row → option K) (rs : list Row) : list K :=
  sort_by kleb (unique (omap key rs)).

Definition group {K} `{EqDecision K} (key : Row → option K) (k : K)
    (rs : list Row) : list Row :=
  filter (λ r, key r = Some k) rs.

(** [df.groupby(keys)[val].sum()] *)
Definition groupby_sum {K} `{EqDecision K} (kleb : K → K → bool)
    (key : Row → option K) (val : Row → option N) (rs : list Row)
    : list (K * N) :=
  (λ k, (k, group_sum (val <$> group key k rs))) <$> group_keys kleb key rs.

(** [df.groupby(keys).size()] *)
Definition groupby_size {K} `{EqDecision K} (kleb : K → K → bool)
    (key : Row → option K) (rs : list Row) : list (K * nat) :=
  (λ k, (k, length (group key k rs))) <$> group_keys kleb key rs.

(** The key of a group on a timestamp and a string column. *)
Definition key2 (cell : Row → option string) (r : Row) : option (Z * string) :=
  t ← sb_date r; s ← cell r; Some (t, s).

(** *** [@st.cache_data] *)

(** The key under which a call is cached is the hash of its argument.  A
    frame of fewer than 50000 rows is hashed cell by cell; of a larger one
    only the shape and the sampled rows are.  The hash itself is taken to
    be free of collisions: the key is what is hashed. *)
Inductive cache_key :=
  | FullKey (cols : list column) (rs : list Row)
  | SampleKey (cols : list column) (n : nat) (sample : list (option Row)).

#[global] Instance cache_key_eq_dec : EqDecision cache_key.
Proof. solve_decision. Defined.

Definition hash_key (df : DataFrame) : cache_key :=
  if bool_decide (Z.of_nat (length (rows df)) < PANDAS_ROWS_LARGE)
  then FullKey (columns df) (rows df)
  else SampleKey (columns df) (length (rows df))
         ((λ i, rows df !! i) <$> sample_positions (length (rows df))).

(** The cache of one decorated function: the results of the calls that
    returned, latest first. *)
Definition Cache (B : Type) : Type := list (cache_key * B).

Fixpoint cache_lookup {B} (k : cache_key) (c : Cache B) : option B :=
  match c with
  | [] => None
  | (k', v) :: c' => if decide (k' = k) then Some v else cache_lookup k c'
  end.

(** A decorated function: on a hit the stored result is returned and the
    function is not run; on a miss it is run and, unless it raises, its
    result is stored. *)
Definition cache_data {B} (f : DataFrame → result B) (df : DataFrame)
    (c : Cache B) : result B * Cache B :=
  match cache_lookup (hash_key df) c with
  | Some v => (Ok v, c)
  | None =>
      match f df with
      | Ok v => (Ok v, (hash_key df, v) :: c)
      | KeyError col => (KeyError col, c)
      end
  end.

(** *** The aggregation pipeline: lines 14-36 and 138-141 *)

Definition compute_shipment_counts_body (df : DataFrame)
    : result (list (Z * nat)) :=
  ax ← getitem df SB_DATE sb_date;
  Ok ((λ edge, (edge, length (filter (in_bin edge) ax))) <$> daily_bins ax).

Definition compute_port_trends_body (df : DataFrame)
    : result (list ((Z * string) * N)) :=
  _ ← getitem df SB_DATE sb_date;
  _ ← getitem df PORT_OF_LOADING port_of_loading;
  _ ← getitem df FOB fob;
  Ok (groupby_sum key2_leb (key2 port_of_loading) fob (rows df)).

Definition compute_product_fob_body (df : DataFrame)
    : result (list (string * N)) :=
  _ ← getitem df HSN_DESCRIPTION hsn_description;
  _ ← getitem df FOB fob;
  Ok (nlargest num_leb 10
        (groupby_sum String.leb hsn_description fob (rows df))).

Definition compute_product_trends_body (df : DataFrame)
    : result (list ((Z * string) * nat)) :=
  _ ← getitem df SB_DATE sb_date;
  _ ← getitem df HSN_DESCRIPTION hsn_description;
  Ok (groupby_size key2_leb (key2 hsn_description) (rows df)).

Definition compute_product_counts_body (df : DataFrame)
    : result (list (string * nat)) :=
  s ← getitem df HSN_DESCRIPTION hsn_description;
  Ok (nlargest Nat.leb 10 (value_counts s)).

Definition compute_total_products_body (df : DataFrame) : result nat :=
  s ← getitem df HSN_DESCRIPTION hsn_description;
  Ok (nunique s).

(** The six functions as the script calls them, under their decorator. *)
Definition compute_shipment_counts := cache_data compute_shipment_counts_body.
Definition compute_port_trends := cache_data compute_port_trends_body.
Definition compute_product_fob := cache_data compute_product_fob_body.
Definition compute_product_trends := cache_data compute_product_trends_body.
Definition compute_product_counts := cache_data compute_product_counts_body.
Definition compute_total_products := cache_data compute_total_products_body.

(** Line 139, the table behind the quantity chart; it is not cached. *)
Definition quantity_data (df : DataFrame) : result (list (string * N)) :=
  _ ← getitem df HSN_DESCRIPTION hsn_description;
  _ ← getitem df QUANTITY quantity;
  Ok (nlargest num_leb 10
        (groupby_sum String.leb hsn_description quantity (rows df))).

(** Lines 118-122, the three metrics of the summary tab. *)
Definition total_shipments (df : DataFrame) : nat := length (rows df).

Definition average_fob (df : DataFrame) : result (mean_value N) :=
  s ← getitem df FOB fob; Ok (series_mean s).

Definition total_fob (df : DataFrame) : result N :=
  s ← getitem df FOB fob; Ok (series_sum s).

(** *** Vocabulary of the statements *)

(** The calendar day a record falls on. *)
Definition on_day (d : Z) (r : Row) : Prop :=
  date_of <$> sb_date r = Some d.

#[global] Instance on_day_dec d r : Decision (on_day d r).
Proof. unfold on_day. apply _. Defined.



(** A constraint is active when its column is there and, for a categorical
    dimension, when the allowed set is not empty. *)
Definition categorical_constraint (df : DataFrame) (c : column)
    (allowed : list (option string)) (v : option string) : Prop :=
  c ∈ columns df → allowed ≠ [] → v ∈ allowed.

#[global] Instance categorical_constraint_dec df c allowed v :
  Decision (categorical_constraint df c allowed v).
Proof. unfold categorical_constraint. apply _. Defined.


(** The test the date filter makes: the timestamp lies between midnight of
    the start day and midnight of the end day. *)
Definition in_date_range (s e : Z) (r : Row) : Prop :=
  match sb_date r with
  | Some t => to_datetime s ≤ t ∧ t ≤ to_datetime e
  | None => False
  end.

#[global] Instance in_date_range_dec s e r : Decision (in_date_range s e r).
Proof. unfold in_date_range. destruct (sb_date r); apply _. Defined.

(** The tests the four steps make on a record. *)
Definition passes (df : DataFrame) (fs : FilterSpec) (r : Row) : Prop :=
  (SB_DATE ∈ columns df → in_date_range (start_date fs) (end_date fs) r)
  ∧ categorical_constraint df PORT_OF_LOADING (ports fs) (port_of_loading r)
  ∧ categorical_constraint df COUNTRY_OF_DESTINATION (countries fs)
      (country_of_destination r)
  ∧ categorical_constraint df PORT_OF_DISCHARGE (discharge_ports fs)
      (port_of_discharge r).

#[global] Instance passes_dec df fs r : Decision (passes df fs r).
Proof. unfold passes. apply _. Defined.

(** The filters other than the one on column [skip], in the order of [main]. *)
Definition remaining_filters (skip : column) (df : DataFrame) (fs : FilterSpec)
    : result DataFrame :=
  df1 ← (if decide (skip = SB_DATE) then Ok df
         else filter_date_range (start_date fs) (end_date fs) df);
  df2 ← (if decide (skip = PORT_OF_LOADING) then Ok df1
         else filter_isin PORT_OF_LOADING port_of_loading (ports fs) df1);
  df3 ← (if decide (skip = COUNTRY_OF_DESTINATION) then Ok df2
         else filter_isin COUNTRY_OF_DESTINATION country_of_destination
                (countries fs) df2);
  if decide (skip = PORT_OF_DISCHARGE) then Ok df3
  else filter_isin PORT_OF_DISCHARGE port_of_discharge (discharge_ports fs) df3.

(** The date range the two date widgets show before the user touches them:
    the days of the earliest and of the latest timestamp of the column. *)
Definition default_range (df : DataFrame) (fs : FilterSpec) : Prop :=
  (∀ m, series_min (sb_date <$> rows df) = Some m → start_date fs = date_of m)
  ∧ (∀ m, series_max (sb_date <$> rows df) = Some m → end_date fs = date_of m).

(** A filter spec without any constraint. *)
Definition unconstrained (df : DataFrame) (fs : FilterSpec) : Prop :=
  default_range df fs
  ∧ ports fs = [] ∧ countries fs = [] ∧ discharge_ports fs = [].

(** A selection that allows no more than another one does. *)
Definition narrower_selection (sel' sel : list (option string)) : Prop :=
  sel = [] ∨ (sel' ≠ [] ∧ sel' ⊆ sel).

(** A filter spec that allows no more than another one does. *)
Definition narrower (fs' fs : FilterSpec) : Prop :=
  start_date fs ≤ start_date fs' ∧ end_date fs' ≤ end_date fs
  ∧ narrower_selection (ports fs') (ports fs)
  ∧ narrower_selection (countries fs') (countries fs)
  ∧ narrower_selection (discharge_ports fs') (discharge_ports fs).

(** A selection made among the options its multiselect offers. *)
Definition among_options (c : column) (cell : Row → option string)
    (sel : list (option string)) (df : DataFrame) : Prop :=
  ∀ options, multiselect_options c cell df = Ok options → sel ⊆ options.

(** The products of a view, and a duplicate-free list of all of them. *)
Definition is_product_of (df : DataFrame) (p : string) : Prop :=
  ∃ r, r ∈ rows df ∧ hsn_description r = Some p.

Definition distinct_products (df : DataFrame) (ps : list string) : Prop :=
  NoDup ps ∧ ∀ p, p ∈ ps ↔ is_product_of df p.

(** The view without the records whose product is missing. *)
Definition with_product (r : Row) : Prop := is_Some (hsn_description r).

#[global] Instance with_product_dec r : Decision (with_product r).
Proof. unfold with_product. apply _. Defined.

Definition drop_missing_products (df : DataFrame) : DataFrame :=
  mkDataFrame (columns df) (filter with_product (rows df)).

(** The records of a group on a timestamp and a string column. *)
Definition in_group2 (cell : Row → option string) (t : Z) (s : string)
    (r : Row) : Prop :=
  sb_date r = Some t ∧ cell r = Some s.

#[global] Instance in_group2_dec cell t s r : Decision (in_group2 cell t s r).
Proof. unfold in_group2. apply _. Defined.

(** The records that have both keys of such a group. *)
Definition has_key2 (cell : Row → option string) (r : Row) : Prop :=
  is_Some (sb_date r) ∧ is_Some (cell r).

#[global] Instance has_key2_dec cell r : Decision (has_key2 cell r).
Proof. unfold has_key2. apply _. Defined.

(** The daily counts of a view, one row for each day from [first] on. *)
Definition daily_counts (view : DataFrame) (first last : Z) : list (Z * nat) :=
  (λ d, (to_datetime d, length (filter (on_day d) (rows view))))
  <$> seqZ first (last - first + 1).

(** A cache as the calls of a session can have left it. *)
Inductive filled_by {B} (f : DataFrame → result B) : Cache B → Prop :=
  | filled_nil : filled_by f []
  | filled_call df c : filled_by f c → filled_by f (cache_data f df c).2.

(** A frame small enough for every cell of it to be hashed. *)
Definition hashed_in_full (df : DataFrame) : Prop :=
  Z.of_nat (length (rows df)) < PANDAS_ROWS_LARGE.

End model.

Arguments Row N : clear implicits.
Arguments DataFrame N : clear implicits.
Arguments cache_key N : clear implicits.
Arguments Cache N B : clear implicits.

(** A sampler that draws no more rows than Streamlit asks for. *)
Definition bounded_sample (sampler : Sampler) : Prop :=
  ∀ n, (length (sample_positions n) ≤ Z.to_nat PANDAS_SAMPLE_SIZE)%nat.

(** A table in descending order of its measure. *)
Definition descending {K V} (vleb : V → V → bool) (tbl : list (K * V)) : Prop :=
  StronglySorted (λ a b, vleb b.2 a.2 = true) tbl.

(** The columns the aggregations read. *)
Definition aggregated_columns : list column :=
  [SB_DATE; PORT_OF_LOADING; HSN_DESCRIPTION; FOB; QUANTITY].

(** The sum of integers, without wrap-around. *)
Definition Zsum (l : list Z) : Z := foldr Z.add 0 l.

(** Values whose sums all stay within int64: the absolute values add up to
    less than 2^63. *)
Definition fits_int64 (l : list Z) : Prop := Zsum (Z.abs <$> l) < 2 ^ 63.

(** The sum of the measures of an integer table. *)
Definition measure_sum {K} (tbl : list (K * Z)) : Z := Zsum tbl.*2.

(** The FOB values and the quantities of some records, and the records
    of one product. *)
Definition fob_values (rs : list (Row Z)) : list Z := dropna (fob <$> rs).

Definition quantities (rs : list (Row Z)) : list Z := dropna (quantity <$> rs).

Definition product_records (p : string) (rs : list (Row Z)) : list (Row Z) :=
  filter (λ r, hsn_description r = Some p) rs.

(** ** Concrete frames used in the examples *)

(** A sampler for the examples: the first 10000 rows. *)
Definition first_rows : Sampler := λ _, seq 0 (Z.to_nat PANDAS_SAMPLE_SIZE).

Definition all_columns : list column :=
  [SB_DATE; PORT_OF_LOADING; COUNTRY_OF_DESTINATION; PORT_OF_DISCHARGE;
   HSN_DESCRIPTION; FOB; QUANTITY].

(** A record of an int64 frame. *)
Definition shipment (t : option Z) (port : option string)
    (product : option string) (value : option Z) : Row Z :=
  mkRow t port (Some "IN"%string) (Some "X"%string) product value (Some 1).

(** 2024-01-01 and 2024-01-02 as day numbers. *)
Definition jan1 : Z := 19723.
Definition jan2 : Z := 19724.

(** 14:30 as nanoseconds after midnight. *)
Definition half_past_two : Z := 52200000000000.

Definition afternoon_row : Row Z :=
  shipment (Some (to_datetime jan2 + half_past_two)) (Some "A"%string)
    (Some "tea"%string) (Some 200).

Definition morning_row : Row Z :=
  shipment (Some (to_datetime jan1)) (Some "A"%string)
    (Some "tea"%string) (Some 100).

Definition undated_row : Row Z :=
  shipment None (Some "B"%string) (Some "rice"%string) (Some 5).

Definition two_days : DataFrame Z :=
  mkDataFrame all_columns [morning_row; afternoon_row].

Definition with_undated : DataFrame Z :=
  mkDataFrame all_columns [morning_row; undated_row].

Definition whole_range : FilterSpec := mkFilterSpec jan1 jan2 [] [] [].
Definition first_day_only : FilterSpec := mkFilterSpec jan1 jan1 [] [] [].

Definition no_port_column : DataFrame Z :=
  mkDataFrame [SB_DATE; HSN_DESCRIPTION; FOB] [morning_row; afternoon_row].

(** A record whose product cell is empty. *)
Definition unlabelled_view : DataFrame Z :=
  mkDataFrame all_columns
    [shipment (Some (to_datetime jan1)) (Some "A"%string) None (Some 5)].

(** A refund booked without a product. *)
Definition unlabelled_refund : DataFrame Z :=
  mkDataFrame all_columns
    [shipment (Some (to_datetime jan1)) (Some "A"%string) None (Some (-5))].

(** Eleven products, the last one without value. *)
Definition eleven_products : DataFrame Z :=
  mkDataFrame all_columns
    ((λ pv : string * Z,
        shipment (Some (to_datetime jan1)) (Some "A"%string)
          (Some pv.1) (Some pv.2))
     <$> [("p01", 1); ("p02", 1); ("p03", 1); ("p04", 1); ("p05", 1);
          ("p06", 1); ("p07", 1); ("p08", 1); ("p09", 1); ("p10", 1);
          ("p11", 0)]%string).

(** Two values whose sum leaves the int64 range. *)
Definition overflowing : DataFrame Z :=
  mkDataFrame all_columns
    [shipment (Some (to_datetime jan1)) (Some "A"%string)
       (Some "tea"%string) (Some (2 ^ 62));
     shipment (Some (to_datetime jan1)) (Some "A"%string)
       (Some "rice"%string) (Some (2 ^ 62))].

(** Shipments on 2024-01-01 and on 2024-01-03, none on the day between. *)
Definition gap_days : DataFrame Z :=
  mkDataFrame all_columns
    [morning_row;
     shipment (Some (to_datetime (jan2 + 1) + half_past_two))
       (Some "B"%string) (Some "rice"%string) (Some 50)].

Definition wide_range : FilterSpec := mkFilterSpec jan1 (jan2 + 2) [] [] [].

Definition empty_view : DataFrame Z := mkDataFrame all_columns [].

Definition empty_view_without_fob : DataFrame Z :=
  mkDataFrame [SB_DATE; HSN_DESCRIPTION] [].

Definition jan1_to_jan1_ports_A : FilterSpec :=
  mkFilterSpec jan1 jan1 [Some "A"%string] [] [].

Definition ports_A : FilterSpec :=
  mkFilterSpec jan1 jan2 [Some "A"%string] [] [].

Definition inverted_range : FilterSpec := mkFilterSpec jan2 jan1 [] [] [].

(** Two shipments of the same port on the same day, hours apart. *)
Definition same_day : DataFrame Z :=
  mkDataFrame all_columns
    [morning_row;
     shipment (Some (to_datetime jan1 + half_past_two)) (Some "A"%string)
       (Some "tea"%string) (Some 200)].

(** Frames of 50000 rows: the same record in every row, and such a frame
    with the record of one row replaced by another one. *)
Definition tea_row : Row Z :=
  shipment (Some (to_datetime jan1)) (Some "A"%string)
    (Some "tea"%string) (Some 1).

Definition late_rice_row : Row Z :=
  shipment (Some (to_datetime (jan2 + 1))) (Some "A"%string)
    (Some "rice"%string) (Some 1000).


Definition uniform_frame (r : Row Z) : DataFrame Z :=
  mkDataFrame all_columns (replicate (Z.to_nat PANDAS_ROWS_LARGE) r).

Definition with_row_at (i : nat) (r : Row Z) (df : DataFrame Z) : DataFrame Z :=
  mkDataFrame (columns df) (<[i:=r]> (rows df)).


(** * Proofs *)

(** ** Dates, lists and sorting *)

Section dates.
Implicit Types (t d : Z) (s : list (option Z)).

Lemma date_of_to_datetime d : date_of (to_datetime d) = d.
Proof. unfold date_of, to_datetime. by apply Z.div_mul. Qed.

Lemma to_datetime_mono d1 d2 : d1 ≤ d2 → to_datetime d1 ≤ to_datetime d2.
Proof. unfold to_datetime, NS_PER_DAY. lia. Qed.

(** A timestamp lies in the day it falls on. *)
Lemma date_of_bounds t :
  to_datetime (date_of t) ≤ t < to_datetime (date_of t) + NS_PER_DAY.
Proof.
  unfold to_datetime, date_of.
  pose proof (Z.mul_div_le t NS_PER_DAY eq_refl).
  pose proof (Z.mul_succ_div_gt t NS_PER_DAY eq_refl).
  lia.
Qed.

Lemma date_of_unique t d :
  to_datetime d ≤ t < to_datetime d + NS_PER_DAY → date_of t = d.
Proof.
  intros H. unfold date_of, to_datetime in *. symmetry.
  apply (Z.div_unique_pos t NS_PER_DAY d (t - d * NS_PER_DAY)); lia.
Qed.

Lemma date_of_mono t1 t2 : t1 ≤ t2 → date_of t1 ≤ date_of t2.
Proof. intros H. unfold date_of. by apply Z.div_le_mono. Qed.

Lemma foldr_min_spec t ts :
  foldr Z.min t ts ∈ t :: ts ∧ ∀ x, x ∈ t :: ts → foldr Z.min t ts ≤ x.
Proof.
  induction ts as [|u ts [IHin IHle]]; simpl.
  - split; [by left|]. intros x ->%list_elem_of_singleton. done.
  - split.
    + destruct (Z.min_spec u (foldr Z.min t ts)) as [[_ ->]|[_ ->]].
      * right. by left.
      * apply elem_of_cons in IHin as [->|?]; [by left|]. by do 2 right.
    + intros x Hx.
      assert (x = u ∨ x ∈ t :: ts) as [->|Hx'].
      { rewrite !elem_of_cons in Hx. rewrite elem_of_cons. tauto. }
      * lia.
      * specialize (IHle x Hx'). lia.
Qed.

Lemma foldr_max_spec t ts :
  foldr Z.max t ts ∈ t :: ts ∧ ∀ x, x ∈ t :: ts → x ≤ foldr Z.max t ts.
Proof.
  induction ts as [|u ts [IHin IHle]]; simpl.
  - split; [by left|]. intros x ->%list_elem_of_singleton. done.
  - split.
    + destruct (Z.max_spec u (foldr Z.max t ts)) as [[_ ->]|[_ ->]].
      * apply elem_of_cons in IHin as [->|?]; [by left|]. by do 2 right.
      * right. by left.
    + intros x Hx.
      assert (x = u ∨ x ∈ t :: ts) as [->|Hx'].
      { rewrite !elem_of_cons in Hx. rewrite elem_of_cons. tauto. }
      * lia.
      * specialize (IHle x Hx'). lia.
Qed.

Lemma elem_of_dropna {A} (s : list (option A)) x : x ∈ dropna s ↔ Some x ∈ s.
Proof.
  unfold dropna. rewrite list_elem_of_omap. split.
  - intros (o & Ho & Heq). simpl in Heq. by subst.
  - intros H. by exists (Some x).
Qed.

Lemma series_min_spec s m :
  series_min s = Some m → Some m ∈ s ∧ ∀ x, Some x ∈ s → m ≤ x.
Proof.
  unfold series_min.
  destruct (dropna s) as [|t ts] eqn:E; [done|]. intros [= <-].
  destruct (foldr_min_spec t ts) as [Hin Hle]. rewrite <-E in Hin, Hle.
  split; [by apply elem_of_dropna|].
  intros x Hx. by apply Hle, elem_of_dropna.
Qed.

Lemma series_max_spec s m :
  series_max s = Some m → Some m ∈ s ∧ ∀ x, Some x ∈ s → x ≤ m.
Proof.
  unfold series_max.
  destruct (dropna s) as [|t ts] eqn:E; [done|]. intros [= <-].
  destruct (foldr_max_spec t ts) as [Hin Hle]. rewrite <-E in Hin, Hle.
  split; [by apply elem_of_dropna|].
  intros x Hx. by apply Hle, elem_of_dropna.
Qed.

Lemma series_min_is_Some s x : Some x ∈ s → is_Some (series_min s).
Proof.
  intros H%elem_of_dropna. unfold series_min.
  destruct (dropna s); [by apply elem_of_nil in H|done].
Qed.

Lemma series_max_is_Some s x : Some x ∈ s → is_Some (series_max s).
Proof.
  intros H%elem_of_dropna. unfold series_max.
  destruct (dropna s); [by apply elem_of_nil in H|done].
Qed.

Lemma filter_all {A} (P : A → Prop) `{!∀ x, Decision (P x)} (l : list A) :
  (∀ x, x ∈ l → P x) → filter P l = l.
Proof.
  induction l as [|x l IH]; intros Hall; [done|].
  rewrite filter_cons, decide_True by (apply Hall; by left).
  f_equal. apply IH. intros y Hy. apply Hall. by right.
Qed.

End dates.


Section lists.
Context {A : Type}.

Lemma unique_NoDup `{EqDecision A} (l : list A) : NoDup (unique l).
Proof. unfold unique. rewrite reverse_Permutation. apply NoDup_remove_dups. Qed.

Lemma elem_of_unique `{EqDecision A} (l : list A) x : x ∈ unique l ↔ x ∈ l.
Proof.
  unfold unique. by rewrite elem_of_reverse, elem_of_remove_dups, elem_of_reverse.
Qed.

Lemma insert_sorted_Permutation (leb : A → A → bool) x l :
  insert_sorted leb x l ≡ₚ x :: l.
Proof.
  induction l as [|y l IH]; simpl; [done|].
  destruct (leb x y); [done|]. rewrite IH. apply Permutation_swap.
Qed.

Lemma sort_by_Permutation (leb : A → A → bool) l : sort_by leb l ≡ₚ l.
Proof.
  induction l as [|x l IH]; simpl; [done|].
  rewrite insert_sorted_Permutation. by f_equiv.
Qed.

Lemma sort_by_length (leb : A → A → bool) l :
  length (sort_by leb l) = length l.
Proof. apply Permutation_length, sort_by_Permutation. Qed.

Lemma elem_of_sort_by (leb : A → A → bool) l x : x ∈ sort_by leb l ↔ x ∈ l.
Proof. by rewrite sort_by_Permutation. Qed.

Lemma NoDup_dropna (l : list (option A)) : NoDup l → NoDup (dropna l).
Proof.
  unfold dropna. induction 1 as [|o l Ho _ IH]; csimpl; [constructor|].
  destruct o as [x|]; simpl; [|done].
  constructor; [|done]. rewrite list_elem_of_omap.
  intros (o & Hin & Heq). simpl in Heq. by subst.
Qed.

Lemma dropna_fmap {B} (f : B → option A) (l : list B) :
  dropna (f <$> l) = omap f l.
Proof.
  unfold dropna. induction l as [|x l IH]; csimpl; [done|].
  rewrite IH. by destruct (f x).
Qed.

(** Rows that a [filter] removes and that [f] maps to nothing anyway. *)
Lemma omap_filter_None {B} (f : A → option B) (P : A → Prop)
    `{!∀ x, Decision (P x)} (l : list A) :
  (∀ x, ¬ P x → f x = None) → omap f (filter P l) = omap f l.
Proof.
  intros Hf. induction l as [|x l IH]; [done|].
  rewrite filter_cons. destruct (decide (P x)) as [|Hn]; csimpl.
  - by rewrite IH.
  - by rewrite (Hf x Hn), IH.
Qed.

Lemma filter_filter_implied (P Q : A → Prop) `{!∀ x, Decision (P x)}
    `{!∀ x, Decision (Q x)} (l : list A) :
  (∀ x, Q x → P x) → filter Q (filter P l) = filter Q l.
Proof.
  intros Himp. induction l as [|x l IH]; [done|].
  rewrite (filter_cons P). destruct (decide (P x)) as [|Hn].
  - rewrite !filter_cons, IH. done.
  - rewrite (filter_cons Q), decide_False by (intros ?; apply Hn; auto). done.
Qed.

Lemma filter_fmap_length {B} (f : A → B) (P : B → Prop) (Q : A → Prop)
    `{!∀ x, Decision (P x)} `{!∀ x, Decision (Q x)} (l : list A) :
  (∀ x, P (f x) ↔ Q x) →
  length (filter P (f <$> l)) = length (filter Q l).
Proof.
  intros Hiff. induction l as [|x l IH]; [done|].
  csimpl. rewrite !filter_cons.
  destruct (decide (P (f x))) as [HP|HP], (decide (Q x)) as [HQ|HQ];
    simpl; rewrite ?IH; try done; exfalso.
  - by apply HQ, Hiff.
  - by apply HP, Hiff.
Qed.

End lists.




Section sorting.
Context {A : Type} (leb : A → A → bool).
Hypothesis leb_total : ∀ x y, leb x y = true ∨ leb y x = true.
Hypothesis leb_trans : ∀ x y z, leb x y = true → leb y z = true → leb x z = true.

Lemma insert_sorted_sorted x l :
  StronglySorted (λ a b, leb a b = true) l →
  StronglySorted (λ a b, leb a b = true) (insert_sorted leb x l).
Proof.
  induction l as [|y l IH]; intros Hs; simpl.
  - repeat constructor.
  - apply StronglySorted_cons in Hs as [Hy Hs].
    rewrite Forall_forall in Hy.
    destruct (leb x y) eqn:E.
    + apply StronglySorted_cons. split.
      * apply Forall_forall. intros z [->|Hz]%elem_of_cons; [done|].
        eapply leb_trans; [done|]. by apply Hy.
      * apply StronglySorted_cons. by rewrite Forall_forall.
    + apply StronglySorted_cons. split; [|by apply IH].
      apply Forall_forall. intros z Hz.
      rewrite insert_sorted_Permutation in Hz.
      apply elem_of_cons in Hz as [->|Hz]; [|by apply Hy].
      destruct (leb_total x y) as [Hxy|Hyx]; [congruence|done].
Qed.

Lemma sort_by_sorted l : StronglySorted (λ a b, leb a b = true) (sort_by leb l).
Proof.
  induction l as [|x l IH]; simpl; [constructor|].
  by apply insert_sorted_sorted.
Qed.

(** The first [n] of the sorted list stand before everything else. *)
Lemma sort_by_take_first n l x y :
  x ∈ take n (sort_by leb l) → y ∈ l → y ∉ take n (sort_by leb l) →
  leb x y = true.
Proof.
  intros Hx Hy Hny.
  pose proof (sort_by_sorted l) as Hs.
  rewrite <-(take_drop n (sort_by leb l)) in Hs.
  eapply (StronglySorted_app_1_elem_of _ _ _ x y Hs); [done|].
  apply elem_of_sort_by with (leb := leb) in Hy.
  rewrite <-(take_drop n (sort_by leb l)) in Hy.
  apply elem_of_app in Hy as [?|?]; done.
Qed.

Lemma sort_by_take_sorted n l :
  StronglySorted (λ a b, leb a b = true) (take n (sort_by leb l)).
Proof.
  pose proof (sort_by_sorted l) as Hs.
  rewrite <-(take_drop n (sort_by leb l)) in Hs.
  by apply StronglySorted_app_1_l in Hs.
Qed.

End sorting.

Section nlargest.
Context {K V : Type} (vleb : V → V → bool).
Hypothesis vleb_total : ∀ x y, vleb x y = true ∨ vleb y x = true.
Hypothesis vleb_trans :
  ∀ x y z, vleb x y = true → vleb y z = true → vleb x z = true.
Implicit Types (s : list (K * V)).

Lemma nlargest_descending n s : descending vleb (nlargest vleb n s).
Proof.
  unfold descending, nlargest.
  apply (sort_by_take_sorted (λ a b : K * V, vleb b.2 a.2)).
  - intros x y. destruct (vleb_total x.2 y.2); auto.
  - intros x y z Hxy Hyz. eapply vleb_trans; [exact Hyz|exact Hxy].
Qed.

Lemma nlargest_dominates n s x y :
  x ∈ nlargest vleb n s → y ∈ s → y ∉ nlargest vleb n s → vleb y.2 x.2 = true.
Proof.
  unfold nlargest. intros Hx Hy Hny.
  assert (∀ a b : K * V, vleb b.2 a.2 = true ∨ vleb a.2 b.2 = true) as Htot.
  { intros a b. destruct (vleb_total a.2 b.2); auto. }
  assert (∀ a b c : K * V, vleb b.2 a.2 = true → vleb c.2 b.2 = true →
            vleb c.2 a.2 = true) as Htrans.
  { intros a b c Hab Hbc. eapply vleb_trans; [exact Hbc|exact Hab]. }
  exact (sort_by_take_first (λ a b : K * V, vleb b.2 a.2) Htot Htrans
           n s x y Hx Hy Hny).
Qed.

Lemma nlargest_sublist_perm n s :
  ∃ s', s' ≡ₚ s ∧ nlargest vleb n s `sublist_of` s'.
Proof.
  eexists. split; [apply sort_by_Permutation|]. apply sublist_take.
Qed.

Lemma elem_of_nlargest n s x : x ∈ nlargest vleb n s → x ∈ s.
Proof.
  unfold nlargest. intros Hx%subseteq_take. by apply elem_of_sort_by in Hx.
Qed.

Lemma nlargest_length n s : length (nlargest vleb n s) = (n `min` length s)%nat.
Proof. unfold nlargest. by rewrite length_take, sort_by_length. Qed.

Lemma nlargest_NoDup_keys n s : NoDup s.*1 → NoDup (nlargest vleb n s).*1.
Proof.
  intros Hnd. destruct (nlargest_sublist_perm n s) as (s' & Hp & Hsub).
  apply (sublist_NoDup _ (s'.*1)); [by rewrite Hp|by apply fmap_sublist].
Qed.

End nlargest.

Lemma Nat_leb_total x y : Nat.leb x y = true ∨ Nat.leb y x = true.
Proof. rewrite !Nat.leb_le. lia. Qed.

Lemma Nat_leb_trans x y z :
  Nat.leb x y = true → Nat.leb y z = true → Nat.leb x z = true.
Proof. rewrite !Nat.leb_le. lia. Qed.

Lemma Z_leb_total x y : Z.leb x y = true ∨ Z.leb y x = true.
Proof. rewrite !Z.leb_le. lia. Qed.

Lemma Z_leb_trans x y z :
  Z.leb x y = true → Z.leb y z = true → Z.leb x z = true.
Proof. rewrite !Z.leb_le. lia. Qed.

(** ** The filter engine *)

Section filter_engine.
Context {N : Type}.
Implicit Types (df view : DataFrame N) (fs : FilterSpec) (r : Row N).
Implicit Types (c : column) (s e : Z) (sel : list (option string)).
Implicit Types (cell : Row N → option string).

Lemma in_columns_true c df : in_columns c df = true ↔ c ∈ columns df.
Proof. unfold in_columns. apply bool_decide_eq_true. Qed.

Lemma in_columns_false c df : in_columns c df = false ↔ c ∉ columns df.
Proof. unfold in_columns. apply bool_decide_eq_false. Qed.

(** A mask computed row by row selects what [filter] selects. *)
Lemma select_rows_pointwise (P : Row N → Prop) `{!∀ r, Decision (P r)}
    (p : Row N → bool) rs :
  (∀ r, p r = true ↔ P r) → select_rows rs (p <$> rs) = filter P rs.
Proof.
  intros Hp. induction rs as [|r rs IH]; [done|].
  csimpl. rewrite filter_cons, IH.
  destruct (p r) eqn:E.
  - rewrite decide_True by (by apply Hp). done.
  - rewrite decide_False; [done|]. intros HP. apply Hp in HP. congruence.
Qed.

Lemma date_mask_pointwise s e rs :
  series_and (series_ge (sb_date <$> rs) (to_datetime s))
             (series_le (sb_date <$> rs) (to_datetime e))
  = (λ r, bool_decide (in_date_range s e r)) <$> rs.
Proof.
  unfold series_and, series_ge, series_le.
  induction rs as [|r rs IH]; [done|].
  csimpl. rewrite IH. f_equal.
  destruct (bool_decide (in_date_range s e r)) eqn:E.
  - apply bool_decide_eq_true in E. unfold in_date_range in E.
    destruct (sb_date r) as [t|]; [|done].
    by rewrite !bool_decide_eq_true_2 by lia.
  - apply bool_decide_eq_false in E. unfold in_date_range in E.
    destruct (sb_date r) as [t|]; [|done].
    repeat case_bool_decide; simpl; try done. lia.
Qed.

Lemma filter_date_range_eq s e df :
  filter_date_range s e df =
  Ok (if in_columns SB_DATE df
      then mkDataFrame (columns df) (filter (in_date_range s e) (rows df))
      else df).
Proof.
  unfold filter_date_range, getitem, getitem_mask.
  destruct (in_columns SB_DATE df); [|done]. simpl.
  rewrite date_mask_pointwise.
  rewrite (select_rows_pointwise (in_date_range s e)); [done|].
  intros r. apply bool_decide_eq_true.
Qed.

Lemma filter_isin_eq c cell sel df :
  filter_isin c cell sel df =
  Ok (if in_columns c df
      then match sel with
           | [] => df
           | _ :: _ => mkDataFrame (columns df)
                         (filter (λ r, cell r ∈ sel) (rows df))
           end
      else df).
Proof.
  unfold filter_isin, getitem, getitem_mask, isin.
  destruct (in_columns c df); [|done].
  destruct sel as [|v sel]; [done|]. simpl.
  rewrite <-list_fmap_compose.
  rewrite (select_rows_pointwise (λ r, cell r ∈ v :: sel)); [done|].
  intros r. simpl. apply bool_decide_eq_true.
Qed.

Lemma filter_isin_nil c cell df : filter_isin c cell [] df = Ok df.
Proof. rewrite filter_isin_eq. by destruct (in_columns c df). Qed.

Lemma filter_date_range_columns s e df v :
  filter_date_range s e df = Ok v → columns v = columns df.
Proof.
  rewrite filter_date_range_eq. intros [= <-].
  by destruct (in_columns SB_DATE df).
Qed.

Lemma filter_isin_columns c cell sel df v :
  filter_isin c cell sel df = Ok v → columns v = columns df.
Proof.
  rewrite filter_isin_eq. intros [= <-].
  by destruct (in_columns c df), sel.
Qed.

Lemma filter_date_range_rows s e df v r :
  filter_date_range s e df = Ok v →
  r ∈ rows v ↔ r ∈ rows df ∧ (SB_DATE ∈ columns df → in_date_range s e r).
Proof.
  rewrite filter_date_range_eq. intros [= <-].
  destruct (in_columns SB_DATE df) eqn:E.
  - apply in_columns_true in E. simpl. rewrite list_elem_of_filter. tauto.
  - apply in_columns_false in E. tauto.
Qed.

Lemma filter_isin_rows c cell sel df v r :
  filter_isin c cell sel df = Ok v →
  r ∈ rows v ↔ r ∈ rows df ∧ (c ∈ columns df → sel ≠ [] → cell r ∈ sel).
Proof.
  rewrite filter_isin_eq. intros [= <-].
  destruct (in_columns c df) eqn:E.
  - apply in_columns_true in E. destruct sel as [|x sel].
    + tauto.
    + simpl. rewrite list_elem_of_filter. intuition congruence.
  - apply in_columns_false in E. tauto.
Qed.

Lemma filter_date_range_sublist s e df v :
  filter_date_range s e df = Ok v → rows v `sublist_of` rows df.
Proof.
  rewrite filter_date_range_eq. intros [= <-].
  destruct (in_columns SB_DATE df); [apply sublist_filter|done].
Qed.

Lemma filter_isin_sublist c cell sel df v :
  filter_isin c cell sel df = Ok v → rows v `sublist_of` rows df.
Proof.
  rewrite filter_isin_eq. intros [= <-].
  destruct (in_columns c df), sel; try done. apply sublist_filter.
Qed.

(** The four steps never raise; [main_filters] is their composition. *)
Lemma main_filters_steps df fs :
  ∃ df1 df2 df3 v,
    filter_date_range (start_date fs) (end_date fs) df = Ok df1
    ∧ filter_isin PORT_OF_LOADING port_of_loading (ports fs) df1 = Ok df2
    ∧ filter_isin COUNTRY_OF_DESTINATION country_of_destination
        (countries fs) df2 = Ok df3
    ∧ filter_isin PORT_OF_DISCHARGE port_of_discharge
        (discharge_ports fs) df3 = Ok v
    ∧ main_filters df fs = Ok v.
Proof.
  destruct (filter_date_range (start_date fs) (end_date fs) df)
    as [df1|] eqn:E1; [|by rewrite filter_date_range_eq in E1].
  destruct (filter_isin PORT_OF_LOADING port_of_loading (ports fs) df1)
    as [df2|] eqn:E2; [|by rewrite filter_isin_eq in E2].
  destruct (filter_isin COUNTRY_OF_DESTINATION country_of_destination
              (countries fs) df2)
    as [df3|] eqn:E3; [|by rewrite filter_isin_eq in E3].
  destruct (filter_isin PORT_OF_DISCHARGE port_of_discharge
              (discharge_ports fs) df3)
    as [v|] eqn:E4; [|by rewrite filter_isin_eq in E4].
  exists df1, df2, df3, v. repeat split; try done.
  unfold main_filters. rewrite E1. simpl. rewrite E2. simpl.
  rewrite E3. simpl. done.
Qed.



(** *** Membership in the Filtered View *)

Lemma main_filters_rows df fs v r :
  main_filters df fs = Ok v → r ∈ rows v ↔ r ∈ rows df ∧ passes df fs r.
Proof.
  destruct (main_filters_steps df fs)
    as (df1 & df2 & df3 & v' & E1 & E2 & E3 & E4 & E).
  rewrite E. intros [= ->].
  rewrite (filter_isin_rows _ _ _ _ _ r E4), (filter_isin_rows _ _ _ _ _ r E3),
    (filter_isin_rows _ _ _ _ _ r E2), (filter_date_range_rows _ _ _ _ r E1).
  rewrite (filter_isin_columns _ _ _ _ _ E3), (filter_isin_columns _ _ _ _ _ E2),
    (filter_date_range_columns _ _ _ _ E1).
  unfold passes, categorical_constraint. tauto.
Qed.



(** *** Order and content of the surviving records *)

(** C8: the Filtered View is a subsequence of the dataset: the surviving
    rows are rows of the dataset, whole and in their original order, and
    the columns are those of the dataset. *)
Theorem filtered_view_subsequence df fs :
  ∃ view, main_filters df fs = Ok view
    ∧ rows view `sublist_of` rows df
    ∧ columns view = columns df.
Proof.
  destruct (main_filters_steps df fs)
    as (df1 & df2 & df3 & view & E1 & E2 & E3 & E4 & E).
  exists view. split; [done|]. split.
  - etrans; [by eapply filter_isin_sublist|].
    etrans; [by eapply filter_isin_sublist|].
    etrans; [by eapply filter_isin_sublist|].
    by eapply filter_date_range_sublist.
  - rewrite (filter_isin_columns _ _ _ _ _ E4), (filter_isin_columns _ _ _ _ _ E3),
      (filter_isin_columns _ _ _ _ _ E2).
    by eapply filter_date_range_columns.
Qed.

(** *** Absent columns *)

(** C7: when the column of a filter is absent from the dataset, the
    Filtered View is what the remaining filters alone produce, and no error
    is raised. *)
Theorem absent_column_filter_noop df fs c :
  c ∉ columns df →
  main_filters df fs = remaining_filters c df fs
  ∧ ∃ view, main_filters df fs = Ok view.
Proof.
  intros Hc.
  destruct (main_filters_steps df fs)
    as (df1 & df2 & df3 & view & E1 & E2 & E3 & E4 & E).
  split; [|by exists view].
  pose proof (filter_date_range_columns _ _ _ _ E1) as C1.
  pose proof (filter_isin_columns _ _ _ _ _ E2) as C2.
  pose proof (filter_isin_columns _ _ _ _ _ E3) as C3.
  assert (∀ d : DataFrame N, columns d = columns df → in_columns c d = false)
    as Hout.
  { intros d Hd. apply in_columns_false. by rewrite Hd. }
  unfold main_filters, remaining_filters.
  destruct c; simpl; try done.
  - rewrite filter_date_range_eq, Hout by done. done.
  - rewrite E1. simpl.
    rewrite filter_isin_eq, Hout by done. done.
  - rewrite E1. simpl. rewrite E2. simpl.
    rewrite filter_isin_eq, Hout by congruence. done.
  - rewrite E1. simpl. rewrite E2. simpl. rewrite E3. simpl.
    rewrite filter_isin_eq, Hout by congruence. done.
Qed.


(** ** The Filtered View as one selection *)

Lemma frame_eta df : mkDataFrame (columns df) (rows df) = df.
Proof. by destruct df. Qed.

Lemma filter_date_range_constraint s e df :
  filter_date_range s e df =
  Ok (mkDataFrame (columns df)
        (filter (λ r, SB_DATE ∈ columns df → in_date_range s e r) (rows df))).
Proof.
  rewrite filter_date_range_eq. f_equal.
  destruct (in_columns SB_DATE df) eqn:E.
  - apply in_columns_true in E. f_equal. apply list_filter_iff. tauto.
  - apply in_columns_false in E. rewrite filter_all by done.
    by rewrite frame_eta.
Qed.

Lemma filter_isin_constraint c cell sel df :
  filter_isin c cell sel df =
  Ok (mkDataFrame (columns df)
        (filter (λ r, categorical_constraint df c sel (cell r)) (rows df))).
Proof.
  rewrite filter_isin_eq. f_equal. unfold categorical_constraint.
  destruct (in_columns c df) eqn:E.
  - apply in_columns_true in E. destruct sel as [|x sel].
    + rewrite filter_all by done. by rewrite frame_eta.
    + f_equal. apply list_filter_iff. intros r. split; [tauto|].
      intros Hr. by apply Hr.
  - apply in_columns_false in E. rewrite filter_all by done.
    by rewrite frame_eta.
Qed.

Lemma main_filters_eq df fs :
  main_filters df fs =
  Ok (mkDataFrame (columns df) (filter (passes df fs) (rows df))).
Proof.
  unfold main_filters.
  rewrite filter_date_range_constraint. simpl.
  rewrite filter_isin_constraint. simpl.
  rewrite filter_isin_constraint. simpl.
  rewrite filter_isin_constraint. simpl.
  do 2 f_equal. rewrite !list_filter_filter. apply list_filter_iff.
  intros r. unfold passes, categorical_constraint.
  simpl. tauto.
Qed.

Lemma narrower_passes df fs fs' r :
  narrower fs' fs → passes df fs' r → passes df fs r.
Proof.
  intros (Hs & He & Hp & Hc & Hd) (Hdate & Hports & Hcountries & Hdis).
  assert (∀ c sel sel' v, narrower_selection sel' sel →
            categorical_constraint df c sel' v →
            categorical_constraint df c sel v) as Hcat.
  { intros c sel sel' v [->|[Hne Hsub]] Hv Hin Hsel; [done|].
    apply Hsub. by apply Hv. }
  repeat split; try (by eapply Hcat).
  intros Hin. specialize (Hdate Hin). unfold in_date_range in *.
  destruct (sb_date r) as [t|]; [|done].
  pose proof (to_datetime_mono _ _ Hs). pose proof (to_datetime_mono _ _ He).
  lia.
Qed.

(** X1: filtering the Filtered View again with the same spec changes
    nothing. *)
Theorem main_filters_idempotent df fs :
  ∃ view, main_filters df fs = Ok view ∧ main_filters view fs = Ok view.
Proof.
  eexists. split; [apply main_filters_eq|].
  rewrite main_filters_eq. simpl. do 2 f_equal.
  apply filter_filter_implied. done.
Qed.

(** X2: a narrower spec (a date range inside the other one, and on each
    categorical dimension a non-empty selection inside the other one unless
    that one is empty) gives a subsequence of the wider spec's view, and
    refining the wider view gives what filtering the dataset gives. *)
Theorem narrower_spec_refines_view df fs fs' :
  narrower fs' fs →
  ∃ view view',
    main_filters df fs = Ok view
    ∧ main_filters df fs' = Ok view'
    ∧ rows view' `sublist_of` rows view
    ∧ main_filters view fs' = Ok view'.
Proof.
  intros Hn. eexists _, _.
  split; [apply main_filters_eq|]. split; [apply main_filters_eq|].
  assert (filter (passes df fs') (filter (passes df fs) (rows df))
          = filter (passes df fs') (rows df)) as Hrefine.
  { apply filter_filter_implied. intros r. by apply narrower_passes. }
  split.
  - simpl. rewrite <-Hrefine. apply sublist_filter.
  - rewrite main_filters_eq. simpl. do 2 f_equal. exact Hrefine.
Qed.


(** X3: when the dataset has the SB_DATE column, every record of the
    Filtered View has a date, the day it falls on is one of the days from
    the start to the end of the range, and the view is empty when the start
    is after the end. *)
Theorem filtered_view_within_days df fs :
  SB_DATE ∈ columns df →
  ∃ view, main_filters df fs = Ok view
    ∧ (∀ r, r ∈ rows view →
         ∃ d, on_day d r ∧ start_date fs ≤ d ≤ end_date fs)
    ∧ (end_date fs < start_date fs → rows view = []).
Proof.
  intros Hc. eexists. split; [apply main_filters_eq|]. simpl.
  assert (∀ r, r ∈ filter (passes df fs) (rows df) →
            ∃ d, on_day d r ∧ start_date fs ≤ d ≤ end_date fs) as Hdays.
  { intros r [[Hdate _] _]%list_elem_of_filter. specialize (Hdate Hc).
    unfold in_date_range in Hdate. unfold on_day.
    destruct (sb_date r) as [t|]; [|done]. exists (date_of t).
    split; [done|]. destruct Hdate as [Hlo Hhi].
    apply date_of_mono in Hlo, Hhi. by rewrite date_of_to_datetime in Hlo, Hhi. }
  split; [done|]. intros Hinv. apply elem_of_nil_inv. intros r Hr.
  destruct (Hdays r Hr) as (d & _ & Hd). lia.
Qed.


(** ** The multiselect options *)

Lemma multiselect_options_elem_of c cell df options v :
  multiselect_options c cell df = Ok options →
  v ∈ options ↔ ∃ r, r ∈ rows df ∧ cell r = v.
Proof.
  unfold multiselect_options, getitem.
  destruct (in_columns c df); [|done]. simpl. intros [= <-].
  rewrite elem_of_unique, list_elem_of_fmap. split.
  - intros (r & -> & Hr). eauto.
  - intros (r & Hr & <-). eauto.
Qed.

(** X4: the options of a multiselect are, without repetition, the values
    its column takes in the frame, and selecting all of them filters like
    selecting none of them: the frame is returned as it is. *)
Theorem select_all_options_noop c cell df options :
  multiselect_options c cell df = Ok options →
  NoDup options
  ∧ (∀ v, v ∈ options ↔ ∃ r, r ∈ rows df ∧ cell r = v)
  ∧ filter_isin c cell options df = Ok df
  ∧ filter_isin c cell [] df = Ok df.
Proof.
  intros Ho. split.
  { unfold multiselect_options, getitem in Ho.
    destruct (in_columns c df); [|done]. injection Ho as <-.
    apply unique_NoDup. }
  split; [intros v; by apply (multiselect_options_elem_of c cell df)|].
  split; [|apply filter_isin_nil].
  rewrite filter_isin_constraint, filter_all; [by rewrite frame_eta|].
  intros r Hr _ _. apply (multiselect_options_elem_of _ _ _ _ _ Ho). eauto.
Qed.


Lemma filter_isin_among_options c cell sel df v :
  filter_isin c cell sel df = Ok v →
  among_options c cell sel df →
  rows df ≠ [] → rows v ≠ [].
Proof.
  rewrite filter_isin_eq. intros [= <-] Hsel Hne.
  destruct (in_columns c df) eqn:E; [|done].
  destruct sel as [|x sel]; [done|]. simpl.
  assert (x ∈ unique (cell <$> rows df)) as Hx.
  { apply Hsel; [|by left].
    unfold multiselect_options, getitem. by rewrite E. }
  apply elem_of_unique, list_elem_of_fmap in Hx as (r & -> & Hr).
  intros Hnil.
  assert (r ∈ filter (λ r', cell r' ∈ cell r :: sel) (rows df)) as Hin.
  { apply list_elem_of_filter. split; [by left|done]. }
  rewrite Hnil in Hin. by apply elem_of_nil in Hin.
Qed.

(** X5: when each selection is made among the options its multiselect
    offers (the values left by the filters before it), the categorical
    filters never empty the view: the Filtered View has a record as soon as
    the date range keeps one. *)
Theorem offered_selections_keep_a_record df fs df1 df2 df3 :
  filter_date_range (start_date fs) (end_date fs) df = Ok df1 →
  filter_isin PORT_OF_LOADING port_of_loading (ports fs) df1 = Ok df2 →
  filter_isin COUNTRY_OF_DESTINATION country_of_destination (countries fs) df2
  = Ok df3 →
  among_options PORT_OF_LOADING port_of_loading (ports fs) df1 →
  among_options COUNTRY_OF_DESTINATION country_of_destination (countries fs) df2 →
  among_options PORT_OF_DISCHARGE port_of_discharge (discharge_ports fs) df3 →
  rows df1 ≠ [] →
  ∃ view, main_filters df fs = Ok view ∧ rows view ≠ [].
Proof.
  intros E1 E2 E3 H1 H2 H3 Hne.
  destruct (filter_isin PORT_OF_DISCHARGE port_of_discharge
              (discharge_ports fs) df3) as [view|] eqn:E4;
    [|by rewrite filter_isin_eq in E4].
  exists view. split.
  - unfold main_filters. rewrite E1. simpl. rewrite E2. simpl.
    rewrite E3. simpl. done.
  - eapply filter_isin_among_options; [done..|].
    eapply filter_isin_among_options; [done..|].
    by eapply filter_isin_among_options.
Qed.


End filter_engine.

(** ** The filter engine on concrete frames *)

Lemma absent_column_filter_noop_witness :
  (PORT_OF_LOADING ∉ columns no_port_column)
  ∧ main_filters no_port_column
      (mkFilterSpec jan1 jan2 [Some "B"%string] [] [])
    = remaining_filters PORT_OF_LOADING no_port_column
        (mkFilterSpec jan1 jan2 [Some "B"%string] [] [])
  ∧ ∃ view, main_filters no_port_column
              (mkFilterSpec jan1 jan2 [Some "B"%string] [] []) = Ok view.
Proof.
  assert (PORT_OF_LOADING ∉ columns no_port_column) as H.
  { apply in_columns_false. vm_compute. reflexivity. }
  split; [exact H|].
  exact (absent_column_filter_noop no_port_column
           (mkFilterSpec jan1 jan2 [Some "B"%string] [] []) PORT_OF_LOADING H).
Defined.

Lemma narrower_spec_refines_view_witness :
  ∃ view view',
    main_filters two_days whole_range = Ok view
    ∧ main_filters two_days jan1_to_jan1_ports_A = Ok view'
    ∧ rows view' `sublist_of` rows view
    ∧ main_filters view jan1_to_jan1_ports_A = Ok view'.
Proof.
  apply (narrower_spec_refines_view two_days whole_range jan1_to_jan1_ports_A).
  unfold narrower. simpl. split; [lia|]. split; [vm_compute; discriminate|].
  repeat split; by left.
Defined.

Lemma filtered_view_within_days_witness :
  ∃ view, main_filters two_days inverted_range = Ok view
    ∧ (∀ r, r ∈ rows view →
         ∃ d, on_day d r
              ∧ start_date inverted_range ≤ d ≤ end_date inverted_range)
    ∧ (end_date inverted_range < start_date inverted_range → rows view = []).
Proof.
  apply (filtered_view_within_days two_days inverted_range).
  apply in_columns_true. vm_compute. reflexivity.
Defined.

Lemma select_all_options_noop_witness :
  NoDup [Some "A"%string]
  ∧ (∀ v, v ∈ [Some "A"%string] ↔
          ∃ r, r ∈ rows two_days ∧ port_of_loading r = v)
  ∧ filter_isin PORT_OF_LOADING port_of_loading [Some "A"%string] two_days
    = Ok two_days
  ∧ filter_isin PORT_OF_LOADING port_of_loading [] two_days = Ok two_days.
Proof.
  apply (select_all_options_noop PORT_OF_LOADING port_of_loading two_days).
  vm_compute. reflexivity.
Defined.

Lemma offered_selections_keep_a_record_witness :
  ∃ view, main_filters two_days ports_A = Ok view ∧ rows view ≠ [].
Proof.
  apply (offered_selections_keep_a_record two_days ports_A
           (mkDataFrame all_columns [morning_row])
           (mkDataFrame all_columns [morning_row])
           (mkDataFrame all_columns [morning_row])).
  - vm_compute. reflexivity.
  - vm_compute. reflexivity.
  - vm_compute. reflexivity.
  - intros options [= <-]. intros v Hv. exact Hv.
  - intros options _. intros v Hv. by apply elem_of_nil in Hv.
  - intros options _. intros v Hv. by apply elem_of_nil in Hv.
  - discriminate.
Defined.


(** C2, at the latest record of a dataset under the default range: the
    record falls on the end day, the range is in order, and the record is
    not in the Filtered View.  The start day is taken whole, the end day
    only at its first instant. *)
Lemma end_day_afternoon_excluded :
  SB_DATE ∈ columns two_days
  ∧ afternoon_row ∈ rows two_days
  ∧ start_date whole_range ≤ end_date whole_range
  ∧ on_day (end_date whole_range) afternoon_row
  ∧ ∃ view, main_filters two_days whole_range = Ok view
      ∧ afternoon_row ∉ rows view.
Proof.
  split; [by left|]. split; [right; by left|].
  split; [vm_compute; discriminate|]. split.
  - vm_compute. reflexivity.
  - exists (mkDataFrame all_columns [morning_row]). split.
    + vm_compute. reflexivity.
    + simpl. rewrite list_elem_of_singleton. discriminate.
Qed.

(** C3, on a dataset whose latest record carries a time of day: the spec
    without constraints does not return the dataset, the default range
    ending at midnight of the last day. *)
Lemma unconstrained_filter_drops_afternoon :
  unconstrained two_days whole_range
  ∧ main_filters two_days whole_range ≠ Ok two_days.
Proof.
  split.
  - repeat split; intros m [= <-]; vm_compute; reflexivity.
  - vm_compute. discriminate.
Qed.

(** The same spec also drops a record without a date. *)
Example unconstrained_filter_drops_undated :
  unconstrained with_undated first_day_only
  ∧ main_filters with_undated first_day_only
    = Ok (mkDataFrame all_columns [morning_row]).
Proof.
  split.
  - repeat split; intros m [= <-]; vm_compute; reflexivity.
  - vm_compute. reflexivity.
Qed.

(** ** The cache *)

Section cache.
Context {N : Type} {dtype : Numeric N} {sampler : Sampler} {B : Type}.
Implicit Types (df : DataFrame N) (c : Cache N B) (k : cache_key N).
Implicit Types (f : DataFrame N → result B).

Lemma getitem_Ok {A} df col (cell : Row N → A) :
  col ∈ columns df → getitem df col cell = Ok (cell <$> rows df).
Proof.
  intros Hc. unfold getitem, in_columns. by rewrite bool_decide_eq_true_2.
Qed.

Lemma cache_data_miss f df c :
  cache_lookup (hash_key df) c = None → (cache_data f df c).1 = f df.
Proof. unfold cache_data. intros ->. by destruct (f df). Qed.

Lemma cache_data_hit f df c v :
  cache_lookup (hash_key df) c = Some v → cache_data f df c = (Ok v, c).
Proof. unfold cache_data. by intros ->. Qed.

(** Every entry of a cache was computed by the function, on a frame with
    the key of the entry. *)
Lemma filled_by_sound f c k v :
  filled_by f c → cache_lookup k c = Some v →
  ∃ df, hash_key df = k ∧ f df = Ok v.
Proof.
  induction 1 as [|df c Hc IH] in k, v |- *; [done|].
  unfold cache_data.
  destruct (cache_lookup (hash_key df) c) as [w|] eqn:E; [by apply IH|].
  destruct (f df) as [w|col] eqn:Ef; [|by apply IH].
  simpl. destruct (decide (hash_key df = k)) as [<-|Hne].
  - intros [= <-]. eauto.
  - apply IH.
Qed.

(** A frame that is hashed in full shares its key with no other frame. *)
Lemma hash_key_full df df' :
  hashed_in_full df → hash_key df' = hash_key df → df' = df.
Proof.
  unfold hashed_in_full, hash_key. intros Hfull.
  rewrite (bool_decide_eq_true_2 _ Hfull).
  case_bool_decide; [|done]. intros [= Hc Hr].
  destruct df, df'. simpl in *. by subst.
Qed.

Lemma cache_data_result f df c :
  filled_by f c →
  ∃ df', hash_key df' = hash_key df ∧ (cache_data f df c).1 = f df'.
Proof.
  intros Hc. destruct (cache_lookup (hash_key df) c) as [v|] eqn:E.
  - destruct (filled_by_sound f c _ v Hc E) as (df' & Hk & Hv).
    exists df'. split; [done|]. by rewrite (cache_data_hit f df c v E).
  - exists df. split; [done|]. by apply cache_data_miss.
Qed.

(** On a frame that is hashed in full the decorated function returns what
    the function computes on that frame. *)
Lemma cache_data_full f df c :
  filled_by f c → hashed_in_full df → (cache_data f df c).1 = f df.
Proof.
  intros Hc Hfull. destruct (cache_data_result f df c Hc) as (df' & Hk & ->).
  by rewrite (hash_key_full df df' Hfull Hk).
Qed.

(** After a call that returned, a frame with the same key gets the result
    of that call. *)
Lemma cache_data_stale f df1 df2 c v :
  hash_key df1 = hash_key df2 →
  cache_lookup (hash_key df1) c = None →
  f df1 = Ok v →
  (cache_data f df2 (cache_data f df1 c).2).1 = Ok v.
Proof.
  intros Hk Hmiss Hv. unfold cache_data at 2. rewrite Hmiss, Hv. simpl.
  unfold cache_data. simpl. rewrite <-Hk. by rewrite decide_True.
Qed.

End cache.

(** Two frames of 50000 rows or more of the same shape that agree on the
    sampled rows have the same key. *)
Lemma hash_key_sampled {N} {sampler : Sampler} (df1 df2 : DataFrame N) :
  ¬ hashed_in_full df1 →
  columns df1 = columns df2 →
  length (rows df1) = length (rows df2) →
  (∀ i, i ∈ sample_positions (length (rows df1)) →
        rows df1 !! i = rows df2 !! i) →
  hash_key df1 = hash_key df2.
Proof.
  unfold hashed_in_full, hash_key. intros Hlarge Hc Hlen Hsample.
  rewrite <-Hlen, <-Hc. rewrite !bool_decide_eq_false_2 by done.
  f_equal. apply list_fmap_ext. intros j i Hi. apply Hsample.
  by eapply list_elem_of_lookup_2.
Qed.

(** Whatever rows are sampled, as long as they are fewer than the rows of
    the frame, one row is not among them. *)
Lemma unsampled_position (positions : list nat) (n : nat) :
  (length positions < n)%nat → ∃ i, (i < n)%nat ∧ i ∉ positions.
Proof.
  intros Hlen.
  destruct (decide (Forall (λ i, i ∈ positions) (seq 0 n))) as [Hall|Hex].
  - exfalso. rewrite Forall_forall in Hall.
    assert (length (seq 0 n) ≤ length positions)%nat as Hle.
    { apply submseteq_length, NoDup_submseteq; [apply NoDup_seq|done]. }
    rewrite length_seq in Hle. lia.
  - apply not_Forall_Exists in Hex; [|apply _].
    apply Exists_exists in Hex as (i & Hi & Hni).
    exists i. apply elem_of_seq in Hi. split; [lia|done].
Qed.

(** ** Groups *)

Section groups.
Context {N : Type} {dtype : Numeric N} {K : Type} `{EqDecision K}.
Implicit Types (key : Row N → option K) (val : Row N → option N).
Implicit Types (rs : list (Row N)).

Lemma elem_of_group_keys kleb key rs k :
  k ∈ group_keys kleb key rs ↔ ∃ r, r ∈ rs ∧ key r = Some k.
Proof.
  unfold group_keys.
  by rewrite elem_of_sort_by, elem_of_unique, list_elem_of_omap.
Qed.

Lemma group_keys_NoDup kleb key rs : NoDup (group_keys kleb key rs).
Proof.
  unfold group_keys. rewrite sort_by_Permutation. apply unique_NoDup.
Qed.

Lemma group_cons key k r rs :
  group key k (r :: rs) =
  if decide (key r = Some k) then r :: group key k rs else group key k rs.
Proof. unfold group. by rewrite filter_cons. Qed.

(** Rows without a key are in no group. *)
Lemma group_keys_filter kleb key (P : Row N → Prop) `{!∀ r, Decision (P r)} rs :
  (∀ r, ¬ P r → key r = None) →
  group_keys kleb key (filter P rs) = group_keys kleb key rs.
Proof. intros Hf. unfold group_keys. by rewrite omap_filter_None. Qed.

Lemma group_filter key (P : Row N → Prop) `{!∀ r, Decision (P r)} k rs :
  (∀ r, ¬ P r → key r = None) →
  group key k (filter P rs) = group key k rs.
Proof.
  intros Hf. unfold group. apply filter_filter_implied.
  intros r Hr. destruct (decide (P r)) as [|Hn]; [done|].
  rewrite (Hf r Hn) in Hr. done.
Qed.

Lemma groupby_sum_filter kleb key val (P : Row N → Prop)
    `{!∀ r, Decision (P r)} rs :
  (∀ r, ¬ P r → key r = None) →
  groupby_sum kleb key val (filter P rs) = groupby_sum kleb key val rs.
Proof.
  intros Hf. unfold groupby_sum. rewrite group_keys_filter by done.
  apply list_fmap_ext. intros _ k _. by rewrite group_filter.
Qed.

Lemma groupby_size_filter kleb key (P : Row N → Prop)
    `{!∀ r, Decision (P r)} rs :
  (∀ r, ¬ P r → key r = None) →
  groupby_size kleb key (filter P rs) = groupby_size kleb key rs.
Proof.
  intros Hf. unfold groupby_size. rewrite group_keys_filter by done.
  apply list_fmap_ext. intros _ k _. by rewrite group_filter.
Qed.

End groups.

(** ** The product aggregations *)

Section products.
Context {N : Type} {dtype : Numeric N}.
Implicit Types (df : DataFrame N) (r : Row N) (rs : list (Row N)).
Implicit Types (ps : list string).


Lemma getitem_drop_missing_products {A B} df c (cell : Row N → A)
    (k1 k2 : result B) :
  (c ∈ columns df → k1 = k2) →
  (_ ← getitem (drop_missing_products df) c cell; k1)
  = (_ ← getitem df c cell; k2).
Proof.
  intros H. unfold getitem, in_columns. simpl.
  case_bool_decide; simpl; [by apply H|done].
Qed.

Lemma distinct_products_nunique df :
  distinct_products df (dropna (unique (hsn_description <$> rows df))).
Proof.
  split.
  - apply NoDup_dropna, unique_NoDup.
  - intros p. rewrite elem_of_dropna, elem_of_unique, list_elem_of_fmap.
    unfold is_product_of. split.
    + intros (r & E & Hr). eauto.
    + intros (r & Hr & E). eauto.
Qed.

Lemma distinct_products_length df ps ps' :
  distinct_products df ps → distinct_products df ps' → length ps = length ps'.
Proof.
  intros [Hnd Hin] [Hnd' Hin']. apply Permutation_length.
  apply NoDup_Permutation; [done..|]. intros p. by rewrite Hin, Hin'.
Qed.

Lemma distinct_products_drop_missing df ps :
  distinct_products (drop_missing_products df) ps ↔ distinct_products df ps.
Proof.
  assert (∀ p, is_product_of (drop_missing_products df) p ↔ is_product_of df p)
    as Hp.
  { intros p. unfold is_product_of, drop_missing_products. simpl. split.
    - intros (r & [_ Hr]%list_elem_of_filter & E). eauto.
    - intros (r & Hr & E). exists r. split; [|done].
      apply list_elem_of_filter. split; [|done]. unfold with_product. by rewrite E. }
  unfold distinct_products. by setoid_rewrite Hp.
Qed.

Lemma group_keys_products_length kleb df :
  length (group_keys kleb hsn_description (rows df))
  = nunique (hsn_description <$> rows df).
Proof.
  unfold nunique.
  apply (distinct_products_length df); [|apply distinct_products_nunique].
  split; [apply group_keys_NoDup|].
  intros p. apply elem_of_group_keys.
Qed.

(** What the function under the decorator counts. *)
Lemma total_products_body df ps :
  HSN_DESCRIPTION ∈ columns df → distinct_products df ps →
  compute_total_products_body df = Ok (length ps).
Proof.
  intros Hc Hps. unfold compute_total_products_body.
  rewrite getitem_Ok by done. simpl. f_equal. unfold nunique.
  apply (distinct_products_length df); [apply distinct_products_nunique|done].
Qed.


Lemma without_product_no_key r : ¬ with_product r → hsn_description r = None.
Proof. unfold with_product. by rewrite <-eq_None_not_Some. Qed.

Lemma without_product_no_key2 r :
  ¬ with_product r → key2 hsn_description r = None.
Proof.
  intros H%without_product_no_key. unfold key2. rewrite H.
  by destruct (sb_date r).
Qed.

Lemma value_counts_drop_missing rs :
  value_counts (hsn_description <$> filter with_product rs)
  = value_counts (hsn_description <$> rs).
Proof.
  unfold value_counts. f_equal.
  rewrite !dropna_fmap.
  rewrite (omap_filter_None _ with_product) by apply without_product_no_key.
  apply list_fmap_ext. intros _ v _. f_equal.
  rewrite !(filter_fmap_length hsn_description (λ x, x = Some v)
              (λ r, hsn_description r = Some v)) by done.
  f_equal. apply filter_filter_implied.
  intros r Hr. unfold with_product. by rewrite Hr.
Qed.

Lemma nunique_drop_missing df :
  nunique (hsn_description <$> rows (drop_missing_products df))
  = nunique (hsn_description <$> rows df).
Proof.
  unfold nunique. apply (distinct_products_length df).
  - apply distinct_products_drop_missing, distinct_products_nunique.
  - apply distinct_products_nunique.
Qed.

(** The functions under the decorator do not see the records whose
    product is missing. *)
Lemma missing_products_excluded_body df :
  compute_product_fob_body (drop_missing_products df)
  = compute_product_fob_body df
  ∧ compute_product_counts_body (drop_missing_products df)
    = compute_product_counts_body df
  ∧ compute_product_trends_body (drop_missing_products df)
    = compute_product_trends_body df
  ∧ quantity_data (drop_missing_products df) = quantity_data df
  ∧ compute_total_products_body (drop_missing_products df)
    = compute_total_products_body df
  ∧ (∀ tbl p, compute_product_fob_body df = Ok tbl → p ∈ tbl.*1 →
       is_product_of df p).
Proof.
  repeat split.
  - unfold compute_product_fob_body.
    apply getitem_drop_missing_products; intros _.
    apply getitem_drop_missing_products; intros _. simpl.
    by rewrite groupby_sum_filter by apply without_product_no_key.
  - unfold compute_product_counts_body, getitem, in_columns. simpl.
    case_bool_decide; simpl; [|done]. by rewrite value_counts_drop_missing.
  - unfold compute_product_trends_body.
    apply getitem_drop_missing_products; intros _.
    apply getitem_drop_missing_products; intros _. simpl.
    by rewrite groupby_size_filter by apply without_product_no_key2.
  - unfold quantity_data.
    apply getitem_drop_missing_products; intros _.
    apply getitem_drop_missing_products; intros _. simpl.
    by rewrite groupby_sum_filter by apply without_product_no_key.
  - unfold compute_total_products_body, getitem, in_columns.
    change (columns (drop_missing_products df)) with (columns df).
    case_bool_decide; [|done].
    change (Ok (nunique (hsn_description <$> rows (drop_missing_products df)))
            = Ok (nunique (hsn_description <$> rows df))).
    by rewrite nunique_drop_missing.
  - intros tbl p. unfold compute_product_fob_body, getitem.
    destruct (in_columns HSN_DESCRIPTION df); [|done]. simpl.
    destruct (in_columns FOB df); [|done]. simpl. intros [= <-].
    unfold nlargest. intros Hp.
    assert (p ∈ (groupby_sum String.leb hsn_description fob (rows df)).*1)
      as Hg.
    { apply list_elem_of_fmap in Hp as (x & -> & Hx).
      apply list_elem_of_fmap_2.
      apply subseteq_take in Hx.
      by apply elem_of_sort_by in Hx. }
    unfold groupby_sum in Hg. rewrite <-list_fmap_compose in Hg.
    apply list_elem_of_fmap in Hg as (k & -> & Hk). simpl.
    by apply elem_of_group_keys in Hk.
Qed.

End products.

(** ** Daily shipment counts *)

Section counting.
Context {A K : Type} `{EqDecision K}.
Implicit Types (cls : A → option K) (ks : list K) (l : list A).

Lemma sum_list_fmap_plus {B} (f g : B → nat) (l : list B) :
  sum_list ((λ x, f x + g x)%nat <$> l)
  = (sum_list (f <$> l) + sum_list (g <$> l))%nat.
Proof. induction l as [|x l IH]; csimpl; [done|]. rewrite IH. lia. Qed.

Lemma sum_list_indicator (k0 : K) ks :
  NoDup ks → k0 ∈ ks →
  sum_list ((λ k, if decide (k0 = k) then 1 else 0)%nat <$> ks) = 1%nat.
Proof.
  induction 1 as [|k ks Hk _ IH]; intros Hin; [by apply elem_of_nil in Hin|].
  csimpl. destruct (decide (k0 = k)) as [->|Hne].
  - rewrite (list_fmap_ext _ (λ _, 0%nat) ks).
    + clear. induction ks; csimpl; lia.
    + intros i x Hx%list_elem_of_lookup_2.
      destruct (decide (k = x)) as [Heq|]; [|reflexivity].
      by rewrite Heq in Hk.
  - apply elem_of_cons in Hin as [?|Hin]; [done|]. by rewrite IH.
Qed.

(** The sizes of the classes add up to the number of classified elements. *)
Lemma count_partition cls ks l :
  NoDup ks →
  (∀ x k, x ∈ l → cls x = Some k → k ∈ ks) →
  sum_list ((λ k, length (filter (λ x, cls x = Some k) l)) <$> ks)
  = length (filter (λ x, is_Some (cls x)) l).
Proof.
  intros Hnd. induction l as [|x l IH]; intros Hks.
  - rewrite filter_nil. simpl. clear. induction ks; csimpl; lia.
  - assert (∀ y k, y ∈ l → cls y = Some k → k ∈ ks) as Hks'.
    { intros y k Hy. apply Hks. by right. }
    specialize (IH Hks'). rewrite (filter_cons (λ y, is_Some (cls y))).
    destruct (cls x) as [k0|] eqn:Ek.
    + rewrite decide_True by done. simpl. rewrite <-IH.
      rewrite (list_fmap_ext _
                 (λ k, (if decide (k0 = k) then 1 else 0)
                       + length (filter (λ y, cls y = Some k) l))%nat ks).
      * rewrite sum_list_fmap_plus, sum_list_indicator; [done..|].
        eapply Hks; [by left|done].
      * intros _ k _. rewrite filter_cons, Ek.
        destruct (decide (Some k0 = Some k)) as [[= ->]|Hne].
        -- by rewrite decide_True.
        -- by rewrite decide_False by congruence.
    + rewrite decide_False by (by intros []). rewrite <-IH.
      f_equal. apply list_fmap_ext. intros _ k _.
      by rewrite filter_cons, Ek, decide_False.
Qed.

End counting.

Lemma length_dropna {A} (l : list (option A)) :
  length (dropna l) = length (filter is_Some l).
Proof.
  unfold dropna. induction l as [|[x|] l IH]; [done| |].
  - rewrite filter_cons, decide_True by done. csimpl. by rewrite IH.
  - rewrite filter_cons, decide_False by (by intros []). done.
Qed.

Lemma in_bin_date d (x : option Z) :
  in_bin (to_datetime d) x ↔ date_of <$> x = Some d.
Proof.
  destruct x as [t|]; simpl; [|done]. split.
  - intros Hb. f_equal. by apply date_of_unique.
  - intros [= <-]. apply date_of_bounds.
Qed.


Section daily.
Context {N : Type} {dtype : Numeric N}.
Implicit Types (df view : DataFrame N) (fs : FilterSpec) (r : Row N).

Lemma main_filters_columns df fs view :
  main_filters df fs = Ok view → columns view = columns df.
Proof.
  destruct (main_filters_steps df fs)
    as (df1 & df2 & df3 & v & E1 & E2 & E3 & E4 & E).
  rewrite E. intros [= ->].
  rewrite (filter_isin_columns _ _ _ _ _ E4), (filter_isin_columns _ _ _ _ _ E3),
    (filter_isin_columns _ _ _ _ _ E2).
  by eapply filter_date_range_columns.
Qed.

(** After the date filter every record has a date. *)
Lemma main_filters_dated df fs view r :
  main_filters df fs = Ok view → SB_DATE ∈ columns df →
  r ∈ rows view → is_Some (sb_date r).
Proof.
  intros E Hc Hr. apply (main_filters_rows _ _ _ r E) in Hr as [_ [Hd _]].
  specialize (Hd Hc). unfold in_date_range in Hd.
  by destruct (sb_date r).
Qed.

Lemma in_bin_on_day d r : in_bin (to_datetime d) (sb_date r) ↔ on_day d r.
Proof.
  unfold on_day. destruct (sb_date r) as [t|]; simpl; [|done]. split.
  - intros Hb. f_equal. by apply date_of_unique.
  - intros [= <-]. apply date_of_bounds.
Qed.

Lemma shipment_counts_dated view :
  SB_DATE ∈ columns view → rows view ≠ [] →
  (∀ r, r ∈ rows view → is_Some (sb_date r)) →
  ∃ first last,
    first ≤ last
    ∧ (∃ r, r ∈ rows view ∧ on_day first r)
    ∧ (∃ r, r ∈ rows view ∧ on_day last r)
    ∧ (∀ r, r ∈ rows view → ∃ d, on_day d r ∧ first ≤ d ≤ last)
    ∧ compute_shipment_counts_body view = Ok (daily_counts view first last).
Proof.
  intros Hc Hne Hdated.
  destruct (rows view) as [|r0 rs] eqn:Erows; [done|]. rewrite <-Erows in *.
  assert (r0 ∈ rows view) as Hr0 by (rewrite Erows; by left).
  destruct (Hdated r0 Hr0) as [t0 Ht0].
  assert (Some t0 ∈ sb_date <$> rows view) as Hin.
  { rewrite <-Ht0. by apply list_elem_of_fmap_2. }
  destruct (series_min_is_Some _ _ Hin) as [lo Hlo].
  destruct (series_max_is_Some _ _ Hin) as [hi Hhi].
  pose proof (series_min_spec _ _ Hlo) as [Hlo_in Hlo_le].
  pose proof (series_max_spec _ _ Hhi) as [Hhi_in Hhi_le].
  exists (date_of lo), (date_of hi).
  assert (∀ t, Some t ∈ sb_date <$> rows view →
            ∃ r, r ∈ rows view ∧ on_day (date_of t) r) as Hon.
  { intros t (r & Ht & Hr)%list_elem_of_fmap. exists r. split; [done|].
    unfold on_day. by rewrite <-Ht. }
  split; [apply date_of_mono; etrans; [by apply Hlo_le|by apply Hhi_le]|].
  split; [by apply Hon|]. split; [by apply Hon|]. split.
  - intros r Hr. destruct (Hdated r Hr) as [t Ht].
    assert (Some t ∈ sb_date <$> rows view) as Hint.
    { rewrite <-Ht. by apply list_elem_of_fmap_2. }
    exists (date_of t). split; [unfold on_day; by rewrite Ht|].
    split; apply date_of_mono; [by apply Hlo_le|by apply Hhi_le].
  - unfold compute_shipment_counts_body. rewrite getitem_Ok by done. simpl.
    unfold daily_bins, daily_counts. rewrite Hlo, Hhi. f_equal.
    rewrite <-list_fmap_compose. apply list_fmap_ext. intros _ d _. simpl.
    f_equal. apply filter_fmap_length. intros r. apply in_bin_on_day.
Qed.


(** The counts of the table of the function under the decorator add up to
    the number of records that have a date. *)
Lemma daily_counts_total_body df :
  SB_DATE ∈ columns df →
  ∃ tbl, compute_shipment_counts_body df = Ok tbl
    ∧ sum_list tbl.*2 = length (dropna (sb_date <$> rows df)).
Proof.
  intros Hc. unfold compute_shipment_counts_body. rewrite getitem_Ok by done.
  simpl. eexists. split; [done|].
  set (ax := sb_date <$> rows df).
  rewrite <-list_fmap_compose. unfold daily_bins.
  destruct (series_min ax) as [lo|] eqn:Hlo.
  - destruct (series_max ax) as [hi|] eqn:Hhi.
    + apply series_min_spec in Hlo as [_ Hlo].
      apply series_max_spec in Hhi as [_ Hhi].
      rewrite <-list_fmap_compose.
      rewrite (list_fmap_ext _
                 (λ d, length (filter (λ x, date_of <$> x = Some d) ax))
                 (seqZ (date_of lo) (date_of hi - date_of lo + 1))).
      * rewrite (count_partition (λ x : option Z, date_of <$> x)).
        -- rewrite length_dropna. f_equal. apply list_filter_iff.
           intros [t|]; simpl; [done|]. split; by intros [].
        -- apply NoDup_seqZ.
        -- intros [t|] k Hx; simpl; [|done]. intros [= <-].
           apply elem_of_seqZ.
           pose proof (date_of_mono _ _ (Hlo t Hx)).
           pose proof (date_of_mono _ _ (Hhi t Hx)). lia.
      * intros _ d _. simpl. f_equal. apply list_filter_iff.
        intros x. apply in_bin_date.
    + unfold series_max in Hhi. by destruct (dropna ax).
  - unfold series_min in Hlo. by destruct (dropna ax).
Qed.

End daily.
(** ** The empty view *)

Section empty.
Context {N : Type} {dtype : Numeric N} {sampler : Sampler}.
Implicit Types (df : DataFrame N).

Lemma empty_hashed_in_full df : rows df = [] → hashed_in_full df.
Proof. unfold hashed_in_full. by intros ->. Qed.

(** C4, as the code has it: on an empty view that has the columns the
    aggregations read, whatever the calls before have left in the caches,
    every aggregate table is empty, the unique product count, the total
    shipment count and the total FOB are 0, the mean FOB is NaN (there is
    nothing to average), and nothing raises. *)
Theorem empty_view_aggregates df c1 c2 c3 c4 c5 c6 :
  rows df = [] →
  (∀ c, c ∈ aggregated_columns → c ∈ columns df) →
  filled_by compute_shipment_counts_body c1 →
  filled_by compute_port_trends_body c2 →
  filled_by compute_product_fob_body c3 →
  filled_by compute_product_counts_body c4 →
  filled_by compute_product_trends_body c5 →
  filled_by compute_total_products_body c6 →
  (compute_shipment_counts df c1).1 = Ok []
  ∧ (compute_port_trends df c2).1 = Ok []
  ∧ (compute_product_fob df c3).1 = Ok []
  ∧ (compute_product_counts df c4).1 = Ok []
  ∧ (compute_product_trends df c5).1 = Ok []
  ∧ (compute_total_products df c6).1 = Ok 0%nat
  ∧ quantity_data df = Ok []
  ∧ total_shipments df = 0%nat
  ∧ average_fob df = Ok NaN
  ∧ total_fob df = Ok num_zero.
Proof.
  intros Hrows Hcols F1 F2 F3 F4 F5 F6.
  pose proof (empty_hashed_in_full df Hrows) as Hfull.
  assert (SB_DATE ∈ columns df) by (apply Hcols; by left).
  assert (PORT_OF_LOADING ∈ columns df) by (apply Hcols; right; by left).
  assert (HSN_DESCRIPTION ∈ columns df) by (apply Hcols; do 2 right; by left).
  assert (FOB ∈ columns df) by (apply Hcols; do 3 right; by left).
  assert (QUANTITY ∈ columns df) by (apply Hcols; do 4 right; by left).
  unfold compute_shipment_counts, compute_port_trends, compute_product_fob,
    compute_product_counts, compute_product_trends, compute_total_products.
  rewrite !cache_data_full by done.
  unfold compute_shipment_counts_body, compute_port_trends_body,
    compute_product_fob_body, compute_product_counts_body,
    compute_product_trends_body, compute_total_products_body,
    quantity_data, total_shipments, average_fob, total_fob.
  rewrite !getitem_Ok by done. rewrite Hrows. done.
Qed.

End empty.

Lemma empty_view_aggregates_witness :
  (compute_shipment_counts (sampler := first_rows) empty_view []).1 = Ok []
  ∧ (compute_port_trends (sampler := first_rows) empty_view []).1 = Ok []
  ∧ (compute_product_fob (sampler := first_rows) empty_view []).1 = Ok []
  ∧ (compute_product_counts (sampler := first_rows) empty_view []).1 = Ok []
  ∧ (compute_product_trends (sampler := first_rows) empty_view []).1 = Ok []
  ∧ (compute_total_products (sampler := first_rows) empty_view []).1 = Ok 0%nat
  ∧ quantity_data empty_view = Ok []
  ∧ total_shipments empty_view = 0%nat
  ∧ average_fob empty_view = Ok NaN
  ∧ total_fob empty_view = Ok 0.
Proof.
  refine (empty_view_aggregates (sampler := first_rows) empty_view
            [] [] [] [] [] [] eq_refl _ (filled_nil _) (filled_nil _)
            (filled_nil _) (filled_nil _) (filled_nil _) (filled_nil _)).
  intros c Hc.
  unfold aggregated_columns in Hc. rewrite !elem_of_cons in Hc.
  destruct Hc as [->|[->|[->|[->|[->|Hc]]]]];
    [| | | | |by apply elem_of_nil in Hc];
    apply (in_columns_true _ empty_view); vm_compute; reflexivity.
Defined.

(** C4, as it is written, on the empty view with every column: the mean
    FOB is NaN, which is the mean of no cells and not zero. *)
Lemma empty_view_mean_is_nan :
  rows empty_view = []
  ∧ average_fob empty_view = Ok NaN
  ∧ ∀ cells, average_fob empty_view ≠ Ok (mean_of cells).
Proof. repeat split. intros cells. vm_compute. discriminate. Qed.

(** On an empty view without the FOB column the metrics raise. *)
Example empty_view_without_fob_raises :
  rows empty_view_without_fob = []
  ∧ raises (average_fob empty_view_without_fob)
  ∧ raises (total_fob empty_view_without_fob).
Proof. repeat split. Qed.
(** ** Stale results of the decorated functions *)

Section replicate_facts.
Context {A : Type}.
Implicit Types (a b x : A) (n i : nat).

Lemma elem_of_insert_replicate a b x n i :
  (i < n)%nat → (2 ≤ n)%nat →
  x ∈ <[i:=b]> (replicate n a) ↔ x = a ∨ x = b.
Proof.
  intros Hi Hn. split.
  - intros (j & Hj)%list_elem_of_lookup.
    destruct (decide (i = j)) as [<-|Hne].
    + rewrite list_lookup_insert_eq in Hj by (by rewrite length_replicate).
      right. by injection Hj.
    + rewrite list_lookup_insert_ne in Hj by done.
      left. by apply lookup_replicate in Hj as [-> _].
  - intros [->| ->].
    + apply list_elem_of_lookup. exists (if decide (i = 0) then 1 else 0)%nat.
      rewrite list_lookup_insert_ne by (case_decide; lia).
      apply lookup_replicate_2. case_decide; lia.
    + apply list_elem_of_lookup. exists i.
      apply list_lookup_insert_eq. by rewrite length_replicate.
Qed.

Lemma filter_replicate (P : A → Prop) `{!∀ x, Decision (P x)} a n :
  P a → filter P (replicate n a) = replicate n a.
Proof.
  intros Ha. apply filter_all. by intros x ->%elem_of_replicate_inv.
Qed.


Lemma dropna_replicate a n : dropna (replicate n (Some a)) = replicate n a.
Proof. induction n as [|n IH]; [done|]. simpl. by f_equal. Qed.

Context `{EqDecision A}.



End replicate_facts.

Lemma series_min_replicate t n :
  (0 < n)%nat → series_min (replicate n (Some t)) = Some t.
Proof.
  intros Hn. destruct n as [|n]; [lia|].
  unfold series_min. rewrite dropna_replicate, replicate_S.
  assert (foldr Z.min t (replicate n t) = t) as ->; [|done].
  clear Hn. induction n as [|n IH]; [done|]. simpl. rewrite IH. lia.
Qed.

Lemma series_max_replicate t n :
  (0 < n)%nat → series_max (replicate n (Some t)) = Some t.
Proof.
  intros Hn. destruct n as [|n]; [lia|].
  unfold series_max. rewrite dropna_replicate, replicate_S.
  assert (foldr Z.max t (replicate n t) = t) as ->; [|done].
  clear Hn. induction n as [|n IH]; [done|]. simpl. rewrite IH. lia.
Qed.

Lemma rows_large_bounds :
  (2 ≤ Z.to_nat PANDAS_ROWS_LARGE)%nat
  ∧ (Z.to_nat PANDAS_SAMPLE_SIZE < Z.to_nat PANDAS_ROWS_LARGE)%nat
  ∧ Z.of_nat (Z.to_nat PANDAS_ROWS_LARGE) = PANDAS_ROWS_LARGE.
Proof. unfold PANDAS_ROWS_LARGE, PANDAS_SAMPLE_SIZE. lia. Qed.

Lemma in_all_columns c : c ∈ all_columns.
Proof. unfold all_columns. destruct c; rewrite !elem_of_cons; auto 8. Qed.

(** Whatever rows the sampler draws, a frame of 50000 equal rows keeps its
    key when the record of some row is replaced. *)
Lemma sampled_hash_collision {sampler : Sampler} (a b : Row Z) :
  bounded_sample sampler →
  ∃ i, (i < Z.to_nat PANDAS_ROWS_LARGE)%nat
    ∧ hash_key (uniform_frame a) = hash_key (with_row_at i b (uniform_frame a)).
Proof.
  intros Hb. destruct rows_large_bounds as (_ & Hlt & Hof).
  destruct (unsampled_position
              (sample_positions (Z.to_nat PANDAS_ROWS_LARGE))
              (Z.to_nat PANDAS_ROWS_LARGE)) as (i & Hi & Hni).
  { specialize (Hb (Z.to_nat PANDAS_ROWS_LARGE)). lia. }
  exists i. split; [done|]. apply hash_key_sampled.
  - unfold hashed_in_full, uniform_frame. cbn [rows].
    rewrite length_replicate, Hof. lia.
  - done.
  - unfold with_row_at, uniform_frame. cbn [rows].
    by rewrite length_insert.
  - unfold with_row_at, uniform_frame. cbn [rows].
    rewrite length_replicate. intros j Hj.
    rewrite list_lookup_insert_ne; [done|]. by intros ->.
Qed.

(** What the functions under the decorator compute on a frame of equal
    rows. *)
Lemma distinct_products_replicate n :
  (0 < n)%nat →
  distinct_products (mkDataFrame all_columns (replicate n tea_row))
    ["tea"%string].
Proof.
  intros Hn. split; [apply NoDup_singleton|].
  intros p. rewrite list_elem_of_singleton. unfold is_product_of. cbn [rows].
  split.
  - intros ->. exists tea_row. split; [|done].
    apply elem_of_replicate. split; [done|lia].
  - intros (r & ->%elem_of_replicate_inv & Hp). by injection Hp.
Qed.

Lemma shipment_counts_replicate n :
  (0 < n)%nat →
  compute_shipment_counts_body (mkDataFrame all_columns (replicate n tea_row))
  = Ok [(to_datetime jan1, n)].
Proof.
  intros Hn. unfold compute_shipment_counts_body.
  rewrite getitem_Ok by apply in_all_columns.
  cbn [rows mbind result_bind]. rewrite fmap_replicate.
  change (sb_date tea_row) with (Some (to_datetime jan1)).
  unfold daily_bins.
  rewrite series_min_replicate, series_max_replicate by done.
  rewrite date_of_to_datetime, Z.sub_diag.
  change (seqZ jan1 (0 + 1)) with [jan1]. cbn [fmap list_fmap].
  rewrite filter_replicate, length_replicate; [done|].
  cbn [in_bin]. unfold NS_PER_DAY. lia.
Qed.


(** C6: the unique product count of a view can be the one of another view.
    Whatever 10000 rows Streamlit samples of a frame of 50000 rows, there
    is a row it does not look at: after a call on a frame of 50000 records
    of one product, the call on the frame that has a record of a second
    product in that row returns 1, and the view has two distinct
    products. *)
Theorem total_products_stale {sampler : Sampler} :
  bounded_sample sampler →
  ∃ i, (i < Z.to_nat PANDAS_ROWS_LARGE)%nat
    ∧ let df1 := uniform_frame tea_row in
      let df2 := with_row_at i late_rice_row df1 in
      HSN_DESCRIPTION ∈ columns df2
      ∧ distinct_products df2 ["tea"; "rice"]%string
      ∧ (compute_total_products df2 (compute_total_products df1 []).2).1
        = Ok 1%nat.
Proof.
  intros Hb. destruct rows_large_bounds as (Hn & _ & _).
  destruct (sampled_hash_collision tea_row late_rice_row Hb) as (i & Hi & Hk).
  exists i. split; [done|]. cbn zeta. split; [apply in_all_columns|]. split.
  - split.
    { apply NoDup_cons_2; [|apply NoDup_singleton].
      by intros [=]%list_elem_of_singleton. }
    intros p. unfold is_product_of, with_row_at, uniform_frame. cbn [rows].
    rewrite !elem_of_cons, elem_of_nil. split.
    + intros [->|[->|[]]].
      * exists tea_row. split; [|done].
        apply elem_of_insert_replicate; [done..|]. by left.
      * exists late_rice_row. split; [|done].
        apply elem_of_insert_replicate; [done..|]. by right.
    + intros (r & Hr & Hp).
      apply elem_of_insert_replicate in Hr; [|done..].
      destruct Hr as [-> | ->]; injection Hp as <-; auto.
  - unfold compute_total_products. apply cache_data_stale; [done..|].
    apply (total_products_body (uniform_frame tea_row) ["tea"%string]);
      [apply in_all_columns|].
    apply distinct_products_replicate. lia.
Qed.

(** C9: the daily table of a view can be the one of another view.  After a
    call on a frame of 50000 records of one day, the call on the frame
    that has a record of two days later in a row that is not sampled
    returns the single row of that one day. *)
Theorem shipment_counts_stale {sampler : Sampler} :
  bounded_sample sampler →
  ∃ i, (i < Z.to_nat PANDAS_ROWS_LARGE)%nat
    ∧ let df1 := uniform_frame tea_row in
      let df2 := with_row_at i late_rice_row df1 in
      (∃ r, r ∈ rows df2 ∧ on_day jan1 r)
      ∧ (∃ r, r ∈ rows df2 ∧ on_day (jan1 + 2) r)
      ∧ (compute_shipment_counts df2 (compute_shipment_counts df1 []).2).1
        = Ok [(to_datetime jan1, Z.to_nat PANDAS_ROWS_LARGE)].
Proof.
  intros Hb. destruct rows_large_bounds as (Hn & _ & _).
  destruct (sampled_hash_collision tea_row late_rice_row Hb) as (i & Hi & Hk).
  exists i. split; [done|]. cbn zeta. split; [|split].
  - exists tea_row. split; [|done].
    unfold with_row_at, uniform_frame. cbn [rows].
    apply elem_of_insert_replicate; [done..|]. by left.
  - exists late_rice_row. split; [|done].
    unfold with_row_at, uniform_frame. cbn [rows].
    apply elem_of_insert_replicate; [done..|]. by right.
  - unfold compute_shipment_counts. apply cache_data_stale; [done..|].
    apply shipment_counts_replicate. lia.
Qed.


Lemma first_rows_bounded : bounded_sample first_rows.
Proof. intros n. unfold sample_positions, first_rows. by rewrite length_seq. Qed.

Lemma total_products_stale_witness :
  bounded_sample first_rows
  ∧ ∃ i, (i < Z.to_nat PANDAS_ROWS_LARGE)%nat
    ∧ let df1 := uniform_frame tea_row in
      let df2 := with_row_at i late_rice_row df1 in
      HSN_DESCRIPTION ∈ columns df2
      ∧ distinct_products df2 ["tea"; "rice"]%string
      ∧ (compute_total_products (sampler := first_rows) df2
           (compute_total_products (sampler := first_rows) df1 []).2).1
        = Ok 1%nat.
Proof.
  split; [apply first_rows_bounded|].
  apply (total_products_stale (sampler := first_rows)).
  intros n. unfold sample_positions, first_rows. rewrite length_seq. lia.
Defined.

Lemma shipment_counts_stale_witness :
  bounded_sample first_rows
  ∧ ∃ i, (i < Z.to_nat PANDAS_ROWS_LARGE)%nat
    ∧ let df1 := uniform_frame tea_row in
      let df2 := with_row_at i late_rice_row df1 in
      (∃ r, r ∈ rows df2 ∧ on_day jan1 r)
      ∧ (∃ r, r ∈ rows df2 ∧ on_day (jan1 + 2) r)
      ∧ (compute_shipment_counts (sampler := first_rows) df2
           (compute_shipment_counts (sampler := first_rows) df1 []).2).1
        = Ok [(to_datetime jan1, Z.to_nat PANDAS_ROWS_LARGE)].
Proof.
  split; [apply first_rows_bounded|].
  apply (shipment_counts_stale (sampler := first_rows)).
  intros n. unfold sample_positions, first_rows. rewrite length_seq. lia.
Defined.

(** ** Sums of an int64 column *)

Section zsums.
Implicit Types (l : list Z) (x : Z).

Lemma Zsum_cons x l : Zsum (x :: l) = x + Zsum l.
Proof. done. Qed.

Lemma Zsum_app l1 l2 : Zsum (l1 ++ l2) = Zsum l1 + Zsum l2.
Proof.
  induction l1 as [|x l1 IH]; [done|].
  rewrite <-app_comm_cons, !Zsum_cons, IH. lia.
Qed.

Lemma Zsum_nonneg l : (∀ x, x ∈ l → 0 ≤ x) → 0 ≤ Zsum l.
Proof.
  induction l as [|x l IH]; intros Hl; [done|]. rewrite Zsum_cons.
  assert (0 ≤ x) by (apply Hl; by left).
  assert (0 ≤ Zsum l) by (apply IH; intros y Hy; apply Hl; by right). lia.
Qed.

Lemma Zsum_pos l : l ≠ [] → (∀ x, x ∈ l → 0 < x) → 0 < Zsum l.
Proof.
  destruct l as [|x l]; [done|]. intros _ Hl. rewrite Zsum_cons.
  assert (0 < x) by (apply Hl; by left).
  assert (0 ≤ Zsum l).
  { apply Zsum_nonneg. intros y Hy. apply Z.lt_le_incl, Hl. by right. }
  lia.
Qed.

Lemma Zsum_Permutation l1 l2 : l1 ≡ₚ l2 → Zsum l1 = Zsum l2.
Proof.
  induction 1 as [|x l1 l2 _ IH|x y l|l1 l2 l3 _ IH1 _ IH2];
    rewrite ?Zsum_cons; lia.
Qed.

Lemma Zsum_take_le n l : (∀ x, x ∈ l → 0 ≤ x) → Zsum (take n l) ≤ Zsum l.
Proof.
  intros Hl. rewrite <-(take_drop n l) at 2. rewrite Zsum_app.
  assert (0 ≤ Zsum (drop n l)); [|lia].
  apply Zsum_nonneg. intros x Hx. apply Hl.
  rewrite <-(take_drop n l). apply elem_of_app. by right.
Qed.

Lemma Zsum_take_lt n l :
  (n < length l)%nat → (∀ x, x ∈ l → 0 < x) → Zsum (take n l) < Zsum l.
Proof.
  intros Hn Hl. rewrite <-(take_drop n l) at 2. rewrite Zsum_app.
  assert (0 < Zsum (drop n l)); [|lia].
  apply Zsum_pos.
  - intros E. apply (f_equal length) in E. rewrite length_drop in E.
    simpl in E. lia.
  - intros x Hx. apply Hl.
    rewrite <-(take_drop n l). apply elem_of_app. by right.
Qed.

Lemma Zsum_abs_le l : Z.abs (Zsum l) ≤ Zsum (Z.abs <$> l).
Proof.
  induction l as [|x l IH]; [done|].
  rewrite fmap_cons, !Zsum_cons. lia.
Qed.

Lemma wrap64_small x : - 2 ^ 63 ≤ x < 2 ^ 63 → wrap64 x = x.
Proof. intros Hx. unfold wrap64. rewrite Z.mod_small; lia. Qed.

Lemma wrap64_add_l x y : wrap64 (wrap64 x + y) = wrap64 (x + y).
Proof.
  unfold wrap64. f_equal.
  replace ((x + 2 ^ 63) `mod` 2 ^ 64 - 2 ^ 63 + y + 2 ^ 63)
    with ((x + 2 ^ 63) `mod` 2 ^ 64 + y) by lia.
  rewrite Zplus_mod_idemp_l. f_equal. lia.
Qed.

(** The int64 sum is the sum of the integers, wrapped around once. *)
Lemma int64_sum_wrap l : int64_sum l = wrap64 (Zsum l).
Proof.
  unfold int64_sum.
  assert (∀ acc, foldl (λ acc x, wrap64 (acc + x)) (wrap64 acc) l
                 = wrap64 (acc + Zsum l)) as Hgen.
  { induction l as [|x l IH]; intros acc.
    - cbn. f_equal. lia.
    - cbn [foldl]. rewrite wrap64_add_l, IH, Zsum_cons. f_equal. lia. }
  apply (Hgen 0).
Qed.

(** Values that fit do not wrap around. *)
Lemma int64_sum_exact l : fits_int64 l → int64_sum l = Zsum l.
Proof.
  unfold fits_int64. intros Hfit. rewrite int64_sum_wrap.
  pose proof (Zsum_abs_le l). apply wrap64_small. lia.
Qed.

Lemma series_sum_exact (s : list (option Z)) :
  fits_int64 (dropna s) → series_sum s = Zsum (dropna s).
Proof.
  intros Hfit. unfold series_sum.
  destruct (dropna s) as [|x l] eqn:E; [done|].
  by apply int64_sum_exact.
Qed.

Lemma group_sum_exact (s : list (option Z)) :
  fits_int64 (dropna s) → group_sum s = Zsum (dropna s).
Proof.
  intros Hfit. unfold group_sum.
  destruct (dropna s) as [|x l] eqn:E; [done|].
  by apply int64_sum_exact.
Qed.

Lemma fits_int64_nonneg l :
  (∀ x, x ∈ l → 0 ≤ x) → fits_int64 l ↔ Zsum l < 2 ^ 63.
Proof.
  intros Hl. unfold fits_int64.
  rewrite (list_fmap_ext Z.abs id l), list_fmap_id; [done|].
  intros i x Hx. apply Z.abs_eq, Hl. by eapply list_elem_of_lookup_2.
Qed.

Lemma Zsum_fmap_ext {B} (f g : B → Z) (l : list B) :
  (∀ b, b ∈ l → f b = g b) → Zsum (f <$> l) = Zsum (g <$> l).
Proof.
  intros Hfg. f_equal. apply list_fmap_ext. intros i b Hb.
  apply Hfg. by eapply list_elem_of_lookup_2.
Qed.

Lemma Zsum_fmap_plus {B} (f g : B → Z) (l : list B) :
  Zsum ((λ b, f b + g b) <$> l) = Zsum (f <$> l) + Zsum (g <$> l).
Proof.
  induction l as [|b l IH]; [done|]. rewrite !fmap_cons, !Zsum_cons, IH. lia.
Qed.

Lemma Zsum_fmap_zero {B} (l : list B) : Zsum ((λ _, 0) <$> l) = 0.
Proof.
  induction l as [|b l IH]; [done|]. by rewrite fmap_cons, Zsum_cons, IH.
Qed.

End zsums.

Section group_sums.
Context {K : Type} `{EqDecision K}.
Implicit Types (key : Row Z → option K) (val : Row Z → option Z).
Implicit Types (rs : list (Row Z)) (r : Row Z).

(** The mathematical sum of the values of a column over some records. *)
Lemma values_cons val r rs :
  Zsum (dropna (val <$> r :: rs))
  = default 0 (val r) + Zsum (dropna (val <$> rs)).
Proof. rewrite fmap_cons. unfold dropna. destruct (val r); done. Qed.

(** A sum that picks one key out of a duplicate-free list. *)
Lemma Zsum_indicator (k0 : K) (c : Z) ks :
  NoDup ks → k0 ∈ ks →
  Zsum ((λ k, if decide (k0 = k) then c else 0) <$> ks) = c.
Proof.
  induction 1 as [|k ks Hk _ IH]; intros Hin; [by apply elem_of_nil in Hin|].
  rewrite fmap_cons, Zsum_cons. destruct (decide (k0 = k)) as [->|Hne].
  - rewrite (Zsum_fmap_ext _ (λ _, 0)).
    + rewrite Zsum_fmap_zero. lia.
    + intros x Hx. destruct (decide (k = x)) as [->|]; done.
  - apply elem_of_cons in Hin as [?|Hin]; [done|]. rewrite IH by done. lia.
Qed.

(** The sums of the groups add up to the sum over the records that have a
    key. *)
Lemma group_values_total key val ks rs :
  NoDup ks →
  (∀ r k, r ∈ rs → key r = Some k → k ∈ ks) →
  Zsum ((λ k, Zsum (dropna (val <$> group key k rs))) <$> ks)
  = Zsum (dropna (val <$> filter (λ r, is_Some (key r)) rs)).
Proof.
  intros Hnd. induction rs as [|r rs IH]; intros Hks.
  - rewrite filter_nil. apply Zsum_fmap_zero.
  - assert (∀ r' k, r' ∈ rs → key r' = Some k → k ∈ ks) as Hks'.
    { intros r' k Hr'. apply Hks. by right. }
    specialize (IH Hks'). rewrite filter_cons.
    destruct (key r) as [k0|] eqn:Ek.
    + rewrite decide_True by done. rewrite values_cons, <-IH.
      rewrite (Zsum_fmap_ext _
                 (λ k, (if decide (k0 = k) then default 0 (val r) else 0)
                       + Zsum (dropna (val <$> group key k rs)))).
      * rewrite Zsum_fmap_plus, Zsum_indicator; [done|done|].
        eapply Hks; [by left|done].
      * intros k _. rewrite group_cons, Ek.
        destruct (decide (Some k0 = Some k)) as [[= ->]|Hne].
        -- rewrite decide_True by done. apply values_cons.
        -- rewrite decide_False by congruence. lia.
    + rewrite decide_False by (by intros []). rewrite <-IH.
      apply Zsum_fmap_ext. intros k _. rewrite group_cons, Ek.
      by rewrite decide_False.
Qed.

Lemma values_filter_le val (P : Row Z → Prop) `{!∀ r, Decision (P r)} rs :
  (∀ x, x ∈ dropna (val <$> rs) → 0 ≤ x) →
  Zsum (dropna (val <$> filter P rs)) ≤ Zsum (dropna (val <$> rs)).
Proof.
  induction rs as [|r rs IH]; intros Hnn; [done|].
  assert (Zsum (dropna (val <$> filter P rs)) ≤ Zsum (dropna (val <$> rs)))
    as IH'.
  { apply IH. intros x Hx. apply Hnn.
    apply elem_of_dropna. apply elem_of_dropna in Hx.
    rewrite fmap_cons. by right. }
  assert (0 ≤ default 0 (val r)) as Hr.
  { destruct (val r) as [q|] eqn:E; simpl; [|lia].
    apply Hnn, elem_of_dropna. rewrite fmap_cons, E. by left. }
  rewrite filter_cons, (values_cons val r rs).
  destruct (decide (P r)); [rewrite values_cons|]; lia.
Qed.

Lemma values_filter_nonneg val (P : Row Z → Prop) `{!∀ r, Decision (P r)}
    rs x :
  (∀ y, y ∈ dropna (val <$> rs) → 0 ≤ y) →
  x ∈ dropna (val <$> filter P rs) → 0 ≤ x.
Proof.
  intros Hnn (r & Hx & [_ Hr]%list_elem_of_filter)%elem_of_dropna%list_elem_of_fmap.
  apply Hnn, elem_of_dropna. rewrite Hx. by apply list_elem_of_fmap_2.
Qed.

(** The values of some of the records fit when those of all records do. *)
Lemma values_filter_fits val (P : Row Z → Prop) `{!∀ r, Decision (P r)} rs :
  fits_int64 (dropna (val <$> rs)) →
  fits_int64 (dropna (val <$> filter P rs)).
Proof.
  unfold fits_int64. intros Hfit.
  eapply Z.le_lt_trans; [|exact Hfit]. clear Hfit.
  induction rs as [|r rs IH]; [done|].
  assert (Zsum (Z.abs <$> dropna (val <$> r :: rs))
          = Z.abs (default 0 (val r)) + Zsum (Z.abs <$> dropna (val <$> rs)))
    as Hcons.
  { rewrite fmap_cons. unfold dropna. by destruct (val r). }
  rewrite Hcons, filter_cons. destruct (decide (P r)); [|lia].
  assert (Zsum (Z.abs <$> dropna (val <$> r :: filter P rs))
          = Z.abs (default 0 (val r))
            + Zsum (Z.abs <$> dropna (val <$> filter P rs))) as ->; [|lia].
  rewrite fmap_cons. unfold dropna. by destruct (val r).
Qed.

(** Without wrap-around the table of [groupby(...).sum()] holds the
    mathematical sum of every group. *)
Lemma groupby_sum_exact kleb key val rs :
  fits_int64 (dropna (val <$> rs)) →
  groupby_sum kleb key val rs
  = (λ k, (k, Zsum (dropna (val <$> group key k rs))))
    <$> group_keys kleb key rs.
Proof.
  intros Hfit. unfold groupby_sum. apply list_fmap_ext.
  intros _ k _. f_equal. unfold group. apply group_sum_exact.
  by apply values_filter_fits.
Qed.

Lemma groupby_sum_total kleb key val rs :
  fits_int64 (dropna (val <$> rs)) →
  measure_sum (groupby_sum kleb key val rs)
  = Zsum (dropna (val <$> filter (λ r, is_Some (key r)) rs)).
Proof.
  intros Hfit. rewrite groupby_sum_exact by done.
  unfold measure_sum. rewrite <-list_fmap_compose.
  apply group_values_total; [apply group_keys_NoDup|].
  intros r k Hr Hk. apply elem_of_group_keys. eauto.
Qed.

Lemma groupby_sum_measures_nonneg kleb key val rs x :
  (∀ y, y ∈ dropna (val <$> rs) → 0 ≤ y) →
  fits_int64 (dropna (val <$> rs)) →
  x ∈ (groupby_sum kleb key val rs).*2 → 0 ≤ x.
Proof.
  intros Hnn Hfit. rewrite groupby_sum_exact by done.
  rewrite <-list_fmap_compose.
  intros (k & -> & _)%list_elem_of_fmap. simpl.
  apply Zsum_nonneg. intros y. unfold group. by apply values_filter_nonneg.
Qed.

Lemma groupby_sum_measures_pos kleb key val rs x :
  (∀ r, r ∈ rs → ∃ q, val r = Some q ∧ 0 < q) →
  fits_int64 (dropna (val <$> rs)) →
  x ∈ (groupby_sum kleb key val rs).*2 → 0 < x.
Proof.
  intros Hpos Hfit.
  rewrite groupby_sum_exact by done.
  rewrite <-list_fmap_compose.
  intros (k & -> & Hk)%list_elem_of_fmap. simpl.
  apply elem_of_group_keys in Hk as (r0 & Hr0 & Hk0).
  apply Zsum_pos.
  - intros E.
    destruct (Hpos r0 Hr0) as (q0 & Hq0 & _).
    assert (q0 ∈ dropna (val <$> group key k rs)) as Hin;
      [|by rewrite E in Hin; apply elem_of_nil in Hin].
    apply elem_of_dropna. rewrite <-Hq0. apply list_elem_of_fmap_2.
    unfold group. by apply list_elem_of_filter.
  - intros q (r & Hq & Hr)%elem_of_dropna%list_elem_of_fmap.
    apply list_elem_of_filter in Hr as [_ Hr].
    destruct (Hpos r Hr) as (q' & Hq' & Hlt). congruence.
Qed.

End group_sums.

(** ** Top products by FOB *)

(** C5, as the code has it, for an int64 FOB column: on a view that is
    hashed in full, when no FOB value is negative and their sum stays
    below 2^63, the sum of the measures of the top-products-by-FOB table is at
    most the total FOB, which is the sum of the FOB values; when moreover
    every record has a product and a strictly positive FOB, the two sums
    are equal exactly when the view has at most 10 distinct products. *)
Theorem top_products_fob_bounded {sampler : Sampler} (df : DataFrame Z)
    (c : Cache Z (list (string * Z))) :
  HSN_DESCRIPTION ∈ columns df → FOB ∈ columns df →
  filled_by compute_product_fob_body c → hashed_in_full df →
  (∀ x, x ∈ fob_values (rows df) → 0 ≤ x) →
  Zsum (fob_values (rows df)) < 2 ^ 63 →
  ∃ tbl total,
    (compute_product_fob df c).1 = Ok tbl
    ∧ total_fob df = Ok total
    ∧ total = Zsum (fob_values (rows df))
    ∧ measure_sum tbl ≤ total
    ∧ ((∀ r, r ∈ rows df → with_product r ∧ ∃ q, fob r = Some q ∧ 0 < q) →
       ∀ ps, distinct_products df ps →
         measure_sum tbl = total ↔ (length ps ≤ 10)%nat).
Proof.
  intros Hh Hf Hc Hfull Hnn Hlt. unfold fob_values in *.
  assert (fits_int64 (dropna (fob <$> rows df))) as Hfit
    by (by apply fits_int64_nonneg).
  unfold compute_product_fob. rewrite cache_data_full by done.
  unfold compute_product_fob_body, total_fob.
  rewrite !getitem_Ok by done. cbn [mbind result_bind].
  eexists _, _. do 2 (split; [reflexivity|]).
  rewrite series_sum_exact by done. split; [done|].
  set (G := groupby_sum String.leb hsn_description fob (rows df)).
  unfold nlargest, measure_sum.
  set (S := sort_by (λ a b : string * Z, num_leb b.2 a.2) G).
  assert (S.*2 ≡ₚ G.*2) as HSG by (unfold S; by rewrite sort_by_Permutation).
  assert (Zsum (S.*2)
          = Zsum (dropna (fob <$> filter with_product (rows df)))) as Htot.
  { rewrite (Zsum_Permutation _ _ HSG).
    by apply (groupby_sum_total String.leb hsn_description fob). }
  rewrite fmap_take. split.
  - trans (Zsum (S.*2)).
    + apply Zsum_take_le. intros x Hx. rewrite HSG in Hx.
      by eapply groupby_sum_measures_nonneg.
    + rewrite Htot. by apply values_filter_le.
  - intros Hall ps Hps.
    rewrite filter_all in Htot by (intros r Hr; by apply Hall).
    assert (length (S.*2) = length ps) as Hlen.
    { rewrite (Permutation_length HSG). unfold G, groupby_sum.
      rewrite !length_fmap.
      apply (distinct_products_length df); [|done].
      split; [apply group_keys_NoDup|].
      intros p. apply elem_of_group_keys. }
    split.
    + intros Heq.
      destruct (decide (length ps ≤ 10)%nat) as [|Hgt]; [done|]. exfalso.
      assert (Zsum (take 10 (S.*2)) < Zsum (S.*2)) as Hless.
      { apply Zsum_take_lt; [lia|]. intros x Hx. rewrite HSG in Hx.
        eapply groupby_sum_measures_pos; [|done..].
        intros r Hr. by apply Hall. }
      lia.
    + intros Hle. rewrite take_ge by lia. done.
Qed.

Lemma top_products_fob_bounded_witness :
  ∃ tbl total,
    (compute_product_fob (sampler := first_rows) two_days []).1 = Ok tbl
    ∧ total_fob two_days = Ok total
    ∧ total = Zsum (fob_values (rows two_days))
    ∧ measure_sum tbl ≤ total
    ∧ ((∀ r, r ∈ rows two_days →
          with_product r ∧ ∃ q, fob r = Some q ∧ 0 < q) →
       ∀ ps, distinct_products two_days ps →
         measure_sum tbl = total ↔ (length ps ≤ 10)%nat).
Proof.
  apply (top_products_fob_bounded (sampler := first_rows) two_days []).
  - apply in_columns_true. vm_compute. reflexivity.
  - apply in_columns_true. vm_compute. reflexivity.
  - apply filled_nil.
  - vm_compute. reflexivity.
  - intros x Hx. vm_compute in Hx.
    apply elem_of_cons in Hx as [->|Hx];
      [|apply list_elem_of_singleton in Hx as ->]; lia.
  - vm_compute. reflexivity.
Defined.

(** C5, as it is written, on a view whose only record has no product: the
    view has no distinct product at all, the table is empty and its sum, 0,
    is not the total FOB, 5. *)
Lemma top_fob_sum_misses_unlabelled_record :
  (compute_product_fob (sampler := first_rows) unlabelled_view []).1 = Ok []
  ∧ total_fob unlabelled_view = Ok 5
  ∧ distinct_products unlabelled_view []
  ∧ (length (@nil string) ≤ 10)%nat
  ∧ measure_sum (@nil (string * Z)) ≠ 5.
Proof.
  split; [vm_compute; reflexivity|]. split; [vm_compute; reflexivity|].
  split; [|split; [simpl; lia|vm_compute; discriminate]].
  split; [apply NoDup_nil_2|]. intros p. split.
  - by intros ?%elem_of_nil.
  - intros (r & Hr & Hp). simpl in Hr.
    by apply list_elem_of_singleton in Hr as ->.
Qed.

(** With a negative value the table's sum exceeds the total. *)
Example top_fob_sum_exceeds_total :
  (compute_product_fob (sampler := first_rows) unlabelled_refund []).1 = Ok []
  ∧ total_fob unlabelled_refund = Ok (-5)
  ∧ ¬ (measure_sum (@nil (string * Z)) ≤ -5).
Proof.
  repeat split; try (vm_compute; reflexivity).
  vm_compute. intros H. by apply H.
Qed.

(** With a product of value 0 the sums agree on more than 10 products. *)
Example top_fob_sum_equal_on_eleven_products :
  ∃ tbl total,
    (compute_product_fob (sampler := first_rows) eleven_products []).1 = Ok tbl
    ∧ total_fob eleven_products = Ok total
    ∧ nunique (hsn_description <$> rows eleven_products) = 11%nat
    ∧ measure_sum tbl = total.
Proof.
  eexists _, _. repeat split; vm_compute; reflexivity.
Qed.

(** When the sum leaves the int64 range the total wraps around and falls
    below the table's sum. *)
Example top_fob_sum_wraps_around :
  ∃ tbl,
    (compute_product_fob (sampler := first_rows) overflowing []).1 = Ok tbl
    ∧ measure_sum tbl = 2 ^ 63
    ∧ total_fob overflowing = Ok (- 2 ^ 63).
Proof.
  eexists. repeat split; vm_compute; reflexivity.
Qed.
(** ** The top-10 tables of an int64 column *)

Section top_by_sum.
Variable val : Row Z → option Z.
Implicit Types (rs : list (Row Z)) (p : string).

Lemma groupby_sum_keys_NoDup rs :
  NoDup (groupby_sum String.leb hsn_description val rs).*1.
Proof.
  unfold groupby_sum. rewrite <-list_fmap_compose.
  rewrite (list_fmap_ext _ id (group_keys String.leb hsn_description rs))
    by done.
  rewrite list_fmap_id. apply group_keys_NoDup.
Qed.

Lemma elem_of_groupby_sum rs p v :
  fits_int64 (dropna (val <$> rs)) →
  (p, v) ∈ groupby_sum String.leb hsn_description val rs ↔
  (∃ r, r ∈ rs ∧ hsn_description r = Some p)
  ∧ v = Zsum (dropna (val <$> product_records p rs)).
Proof.
  intros Hfit. rewrite groupby_sum_exact by done.
  rewrite list_elem_of_fmap. split.
  - intros (k & [= -> ->] & Hk). by apply elem_of_group_keys in Hk.
  - intros [Hk ->]. exists p. split; [done|]. by apply elem_of_group_keys.
Qed.

(** What the ten largest group sums are. *)
Lemma top_by_sum_table rs ps :
  fits_int64 (dropna (val <$> rs)) →
  distinct_products (mkDataFrame [] rs) ps →
  let tbl := nlargest Z.leb 10 (groupby_sum String.leb hsn_description val rs) in
  length tbl = (10 `min` length ps)%nat
  ∧ NoDup tbl.*1
  ∧ descending Z.leb tbl
  ∧ (∀ p v, (p, v) ∈ tbl →
       (∃ r, r ∈ rs ∧ hsn_description r = Some p)
       ∧ v = Zsum (dropna (val <$> product_records p rs)))
  ∧ (∀ p v q, (p, v) ∈ tbl →
       (∃ r, r ∈ rs ∧ hsn_description r = Some q) → q ∉ tbl.*1 →
       Zsum (dropna (val <$> product_records q rs)) ≤ v).
Proof.
  intros Hfit Hps tbl. unfold tbl. split; [|split; [|split; [|split]]].
  - rewrite nlargest_length. f_equal. unfold groupby_sum.
    rewrite length_fmap.
    apply (distinct_products_length (mkDataFrame [] rs)); [|done].
    split; [apply group_keys_NoDup|].
    intros p. apply elem_of_group_keys.
  - apply nlargest_NoDup_keys, groupby_sum_keys_NoDup.
  - apply nlargest_descending; [apply Z_leb_total|apply Z_leb_trans].
  - intros p v Hin. by apply elem_of_nlargest, elem_of_groupby_sum in Hin.
  - intros p v q Hp Hq Hnq. apply Z.leb_le.
    apply (nlargest_dominates Z.leb Z_leb_total Z_leb_trans 10
             (groupby_sum String.leb hsn_description val rs) (p, v)
             (q, Zsum (dropna (val <$> product_records q rs)))).
    + done.
    + by apply elem_of_groupby_sum.
    + intros Hin. apply Hnq. by apply (list_elem_of_fmap_2 fst) in Hin.
Qed.

End top_by_sum.

(** X6: on a view that is hashed in full and whose FOB column is int64 with
    values that fit, the top-products-by-FOB table has one row for each of
    the products with the ten largest FOB sums (for each product, when
    there are at most ten): no product twice, each with the sum of the FOB
    values of its records, in descending order of the sum, and no product
    left out has a larger sum than a product in the table. *)
Theorem product_fob_table {sampler : Sampler} (df : DataFrame Z)
    (c : Cache Z (list (string * Z))) ps :
  HSN_DESCRIPTION ∈ columns df → FOB ∈ columns df →
  filled_by compute_product_fob_body c → hashed_in_full df →
  fits_int64 (fob_values (rows df)) →
  distinct_products df ps →
  ∃ tbl, (compute_product_fob df c).1 = Ok tbl
    ∧ length tbl = (10 `min` length ps)%nat
    ∧ NoDup tbl.*1
    ∧ descending Z.leb tbl
    ∧ (∀ p v, (p, v) ∈ tbl →
         is_product_of df p
         ∧ v = Zsum (fob_values (product_records p (rows df))))
    ∧ (∀ p v q, (p, v) ∈ tbl → is_product_of df q → q ∉ tbl.*1 →
         Zsum (fob_values (product_records q (rows df))) ≤ v).
Proof.
  intros Hh Hf Hc Hfull Hfit Hps.
  unfold compute_product_fob. rewrite cache_data_full by done.
  unfold compute_product_fob_body.
  rewrite !getitem_Ok by done. cbn [mbind result_bind].
  eexists. split; [done|].
  by apply (top_by_sum_table fob (rows df) ps).
Qed.

Lemma gap_days_products : distinct_products gap_days ["tea"; "rice"]%string.
Proof.
  split.
  - apply NoDup_cons_2; [|apply NoDup_singleton].
    by intros [=]%list_elem_of_singleton.
  - intros p. unfold is_product_of. simpl.
    rewrite !elem_of_cons, elem_of_nil. split.
    + intros [->|[->|[]]].
      * eexists. split; [by left|reflexivity].
      * eexists. split; [right; by left|reflexivity].
    + intros (r & Hr & Hp). rewrite !elem_of_cons, elem_of_nil in Hr.
      destruct Hr as [->|[->|[]]]; injection Hp as <-; auto.
Qed.

Lemma product_fob_table_witness :
  ∃ tbl, (compute_product_fob (sampler := first_rows) gap_days
            (compute_product_fob (sampler := first_rows) two_days []).2).1
         = Ok tbl
    ∧ length tbl = (10 `min` length ["tea"; "rice"]%string)%nat
    ∧ NoDup tbl.*1
    ∧ descending Z.leb tbl
    ∧ (∀ p v, (p, v) ∈ tbl →
         is_product_of gap_days p
         ∧ v = Zsum (fob_values (product_records p (rows gap_days))))
    ∧ (∀ p v q, (p, v) ∈ tbl → is_product_of gap_days q → q ∉ tbl.*1 →
         Zsum (fob_values (product_records q (rows gap_days))) ≤ v).
Proof.
  apply (product_fob_table (sampler := first_rows) gap_days).
  - apply in_columns_true. vm_compute. reflexivity.
  - apply in_columns_true. vm_compute. reflexivity.
  - apply filled_call, filled_nil.
  - vm_compute. reflexivity.
  - vm_compute. reflexivity.
  - apply gap_days_products.
Defined.

(** X7: the table behind the quantity chart is built the same way from
    QUANTITY, and it is not cached: for an int64 column whose values fit,
    the products with the ten largest quantity sums, no product twice, each
    with the sum of the quantities of its records, in descending order,
    none left out with a larger sum. *)
Theorem quantity_data_table (df : DataFrame Z) ps :
  HSN_DESCRIPTION ∈ columns df → QUANTITY ∈ columns df →
  fits_int64 (quantities (rows df)) →
  distinct_products df ps →
  ∃ tbl, quantity_data df = Ok tbl
    ∧ length tbl = (10 `min` length ps)%nat
    ∧ NoDup tbl.*1
    ∧ descending Z.leb tbl
    ∧ (∀ p v, (p, v) ∈ tbl →
         is_product_of df p
         ∧ v = Zsum (quantities (product_records p (rows df))))
    ∧ (∀ p v q, (p, v) ∈ tbl → is_product_of df q → q ∉ tbl.*1 →
         Zsum (quantities (product_records q (rows df))) ≤ v).
Proof.
  intros Hh Hq Hfit Hps. unfold quantity_data.
  rewrite !getitem_Ok by done. cbn [mbind result_bind].
  eexists. split; [done|].
  by apply (top_by_sum_table quantity (rows df) ps).
Qed.

Lemma quantity_data_table_witness :
  ∃ tbl, quantity_data gap_days = Ok tbl
    ∧ length tbl = (10 `min` length ["tea"; "rice"]%string)%nat
    ∧ NoDup tbl.*1
    ∧ descending Z.leb tbl
    ∧ (∀ p v, (p, v) ∈ tbl →
         is_product_of gap_days p
         ∧ v = Zsum (quantities (product_records p (rows gap_days))))
    ∧ (∀ p v q, (p, v) ∈ tbl → is_product_of gap_days q → q ∉ tbl.*1 →
         Zsum (quantities (product_records q (rows gap_days))) ≤ v).
Proof.
  apply (quantity_data_table gap_days).
  - apply in_columns_true. vm_compute. reflexivity.
  - apply in_columns_true. vm_compute. reflexivity.
  - vm_compute. reflexivity.
  - apply gap_days_products.
Defined.

(** ** Groups on a timestamp and a name *)

Section key2_groups.
Context {N : Type} {dtype : Numeric N}.
Variable cell : Row N → option string.
Implicit Types (rs : list (Row N)) (r : Row N) (t : Z) (s : string).

Lemma key2_in_group2 r t s : key2 cell r = Some (t, s) ↔ in_group2 cell t s r.
Proof.
  unfold key2, in_group2.
  destruct (sb_date r) as [t'|], (cell r) as [s'|]; simpl; split;
    try done; try (by intros [? ?]).
  - by intros [= -> ->].
  - by intros [[= ->] [= ->]].
Qed.

Lemma key2_has_key2 r : is_Some (key2 cell r) ↔ has_key2 cell r.
Proof.
  unfold key2, has_key2.
  destruct (sb_date r) as [t'|], (cell r) as [s'|]; simpl; split;
    try done; try (by intros [[] []]); try (by intros []).
Qed.

Lemma group_key2 t s rs :
  group (key2 cell) (t, s) rs = filter (in_group2 cell t s) rs.
Proof. unfold group. apply list_filter_iff. intros r. apply key2_in_group2. Qed.

Lemma key2_group_keys t s rs :
  (t, s) ∈ group_keys key2_leb (key2 cell) rs ↔
  ∃ r, r ∈ rs ∧ in_group2 cell t s r.
Proof.
  rewrite elem_of_group_keys. by setoid_rewrite key2_in_group2.
Qed.

End key2_groups.

(** X10: on a view that is hashed in full and whose FOB column is int64
    with values that fit, the port trend has one row for each pair of a
    timestamp and a port that some record carries, the timestamp taken as
    it is (with its time of day): the row holds the sum of the FOB values
    of the records with exactly that timestamp and that port, and the sums
    of all rows add up to the sum of the FOB values of the records that
    have both a date and a port. *)
Theorem port_trends_table {sampler : Sampler} (df : DataFrame Z)
    (c : Cache Z (list ((Z * string) * Z))) :
  SB_DATE ∈ columns df → PORT_OF_LOADING ∈ columns df → FOB ∈ columns df →
  filled_by compute_port_trends_body c → hashed_in_full df →
  fits_int64 (fob_values (rows df)) →
  ∃ tbl, (compute_port_trends df c).1 = Ok tbl
    ∧ NoDup tbl.*1
    ∧ (∀ t p v, ((t, p), v) ∈ tbl ↔
         (∃ r, r ∈ rows df ∧ in_group2 port_of_loading t p r)
         ∧ v = Zsum (fob_values
                       (filter (in_group2 port_of_loading t p) (rows df))))
    ∧ measure_sum tbl
      = Zsum (fob_values (filter (has_key2 port_of_loading) (rows df))).
Proof.
  intros Hd Hp Hf Hc Hfull Hfit. unfold fob_values in *.
  unfold compute_port_trends. rewrite cache_data_full by done.
  unfold compute_port_trends_body.
  rewrite !getitem_Ok by done. cbn [mbind result_bind].
  eexists. split; [done|]. split; [|split].
  - unfold groupby_sum. rewrite <-list_fmap_compose.
    rewrite (list_fmap_ext _ id (group_keys key2_leb (key2 port_of_loading)
                                   (rows df))) by done.
    rewrite list_fmap_id. apply group_keys_NoDup.
  - intros t p v. rewrite groupby_sum_exact by done.
    rewrite list_elem_of_fmap.
    rewrite <-group_key2, <-key2_group_keys. split.
    + by intros ([t' p'] & [= -> -> ->] & Hk).
    + intros [Hk ->]. by exists (t, p).
  - rewrite groupby_sum_total by done.
    rewrite (list_filter_iff _ (has_key2 port_of_loading)); [done|].
    intros r. apply key2_has_key2.
Qed.

Lemma port_trends_table_witness :
  ∃ tbl, (compute_port_trends (sampler := first_rows) same_day []).1 = Ok tbl
    ∧ NoDup tbl.*1
    ∧ (∀ t p v, ((t, p), v) ∈ tbl ↔
         (∃ r, r ∈ rows same_day ∧ in_group2 port_of_loading t p r)
         ∧ v = Zsum (fob_values
                       (filter (in_group2 port_of_loading t p)
                          (rows same_day))))
    ∧ measure_sum tbl
      = Zsum (fob_values (filter (has_key2 port_of_loading) (rows same_day))).
Proof.
  apply (port_trends_table (sampler := first_rows) same_day []).
  - apply in_columns_true. vm_compute. reflexivity.
  - apply in_columns_true. vm_compute. reflexivity.
  - apply in_columns_true. vm_compute. reflexivity.
  - apply filled_nil.
  - vm_compute. reflexivity.
  - vm_compute. reflexivity.
Defined.

(** Two shipments of one port on one day are two points of the port trend
    and one bar of the daily counts. *)
Example same_day_port_trend :
  (compute_port_trends (sampler := first_rows) same_day []).1
  = Ok [((to_datetime jan1, "A"%string), 100);
        ((to_datetime jan1 + half_past_two, "A"%string), 200)]
  ∧ (compute_shipment_counts (sampler := first_rows) same_day []).1
    = Ok [(to_datetime jan1, 2%nat)].
Proof. split; vm_compute; reflexivity. Qed.

(** ** The tables of counts *)

Lemma value_counts_elem_of s p n :
  (p, n) ∈ value_counts s ↔
  Some p ∈ s ∧ n = length (filter (λ x, x = Some p) s).
Proof.
  unfold value_counts.
  rewrite elem_of_sort_by, list_elem_of_fmap. split.
  - intros (v & [= -> ->] & Hv). split; [|done].
    by apply elem_of_unique, elem_of_dropna in Hv.
  - intros [Hp ->]. exists p. split; [done|].
    by apply elem_of_unique, elem_of_dropna.
Qed.

Lemma value_counts_keys s : (value_counts s).*1 ≡ₚ unique (dropna s).
Proof.
  unfold value_counts. rewrite sort_by_Permutation, <-list_fmap_compose.
  rewrite (list_fmap_ext _ id (unique (dropna s))) by done.
  by rewrite list_fmap_id.
Qed.

Section count_tables.
Context {N : Type} {dtype : Numeric N} {sampler : Sampler}.
Implicit Types (df view : DataFrame N) (fs : FilterSpec) (r : Row N).
Implicit Types (ps : list string).

Lemma value_counts_products_length df ps :
  distinct_products df ps →
  length (value_counts (hsn_description <$> rows df)) = length ps.
Proof.
  intros Hps.
  rewrite <-(length_fmap fst), (Permutation_length (value_counts_keys _)).
  apply (distinct_products_length df); [|done].
  split; [apply unique_NoDup|].
  intros p. rewrite elem_of_unique, elem_of_dropna, list_elem_of_fmap.
  unfold is_product_of. split.
  - intros (r & E & Hr). eauto.
  - intros (r & Hr & E). eauto.
Qed.

(** X8: on a view that is hashed in full and in which every record has a
    date (as in a Filtered View), the counts of the daily-shipment-counts
    table add up to the total shipment count. *)
Theorem daily_counts_total df (c : Cache N (list (Z * nat))) :
  SB_DATE ∈ columns df →
  filled_by compute_shipment_counts_body c → hashed_in_full df →
  (∀ r, r ∈ rows df → is_Some (sb_date r)) →
  ∃ tbl, (compute_shipment_counts df c).1 = Ok tbl
    ∧ sum_list tbl.*2 = total_shipments df.
Proof.
  intros Hd Hc Hfull Hall.
  unfold compute_shipment_counts. rewrite cache_data_full by done.
  destruct (daily_counts_total_body df Hd) as (tbl & -> & Hsum).
  exists tbl. split; [done|].
  rewrite Hsum, length_dropna. unfold total_shipments.
  rewrite filter_all, length_fmap; [done|].
  intros x (r & -> & Hr)%list_elem_of_fmap. by apply Hall.
Qed.

(** X9: on a view that is hashed in full, the top-products-by-count table
    has one row for each of the products with the ten largest numbers of
    records (for each product, when there are at most ten): no product
    twice, each with the number of its records, which is at least 1, in
    descending order of that number, and no product left out has more
    records than a product in the table. *)
Theorem product_counts_table df (c : Cache N (list (string * nat))) ps :
  HSN_DESCRIPTION ∈ columns df →
  filled_by compute_product_counts_body c → hashed_in_full df →
  distinct_products df ps →
  ∃ tbl, (compute_product_counts df c).1 = Ok tbl
    ∧ length tbl = (10 `min` length ps)%nat
    ∧ NoDup tbl.*1
    ∧ descending Nat.leb tbl
    ∧ (∀ p n, (p, n) ∈ tbl →
         is_product_of df p
         ∧ n = length (filter (λ r, hsn_description r = Some p) (rows df))
         ∧ (1 ≤ n)%nat)
    ∧ (∀ p n q, (p, n) ∈ tbl → is_product_of df q → q ∉ tbl.*1 →
         (length (filter (λ r, hsn_description r = Some q) (rows df)) ≤ n)%nat).
Proof.
  intros Hh Hc Hfull Hps.
  unfold compute_product_counts. rewrite cache_data_full by done.
  unfold compute_product_counts_body. rewrite getitem_Ok by done.
  cbn [mbind result_bind]. eexists. split; [done|].
  set (s := hsn_description <$> rows df).
  assert (∀ p, length (filter (λ x, x = Some p) s)
               = length (filter (λ r, hsn_description r = Some p) (rows df)))
    as Hcount.
  { intros p. unfold s. by apply filter_fmap_length. }
  assert (∀ p, Some p ∈ s ↔ is_product_of df p) as Hprod.
  { intros p. unfold s, is_product_of. rewrite list_elem_of_fmap. split.
    - intros (r & E & Hr). eauto.
    - intros (r & Hr & E). eauto. }
  split; [|split; [|split; [|split]]].
  - rewrite nlargest_length. unfold s.
    by rewrite (value_counts_products_length df ps).
  - apply nlargest_NoDup_keys. rewrite value_counts_keys. apply unique_NoDup.
  - apply nlargest_descending; [apply Nat_leb_total|apply Nat_leb_trans].
  - intros p n [Hp ->]%elem_of_nlargest%value_counts_elem_of.
    apply Hprod in Hp. split; [done|]. split; [apply Hcount|].
    rewrite Hcount. destruct Hp as (r & Hr & E).
    assert (r ∈ filter (λ r, hsn_description r = Some p) (rows df)) as Hin.
    { by apply list_elem_of_filter. }
    destruct (filter (λ r, hsn_description r = Some p) (rows df));
      [|simpl; lia].
    by apply elem_of_nil in Hin.
  - intros p n q Hp Hq Hnq. rewrite <-Hcount. apply Nat.leb_le.
    apply (nlargest_dominates Nat.leb Nat_leb_total Nat_leb_trans 10
             (value_counts s) (p, n)
             (q, length (filter (λ x, x = Some q) s))).
    + done.
    + apply value_counts_elem_of. split; [by apply Hprod|done].
    + intros Hin. apply Hnq. by apply (list_elem_of_fmap_2 fst) in Hin.
Qed.

(** X11: on a view that is hashed in full, the daily product trend has one
    row for each pair of a timestamp and a product that some record
    carries, with the number of the records with exactly that timestamp
    and that product, and the counts add up to the number of records that
    have both a date and a product. *)
Theorem product_trends_table df (c : Cache N (list ((Z * string) * nat))) :
  SB_DATE ∈ columns df → HSN_DESCRIPTION ∈ columns df →
  filled_by compute_product_trends_body c → hashed_in_full df →
  ∃ tbl, (compute_product_trends df c).1 = Ok tbl
    ∧ NoDup tbl.*1
    ∧ (∀ t p n, ((t, p), n) ∈ tbl ↔
         (∃ r, r ∈ rows df ∧ in_group2 hsn_description t p r)
         ∧ n = length (filter (in_group2 hsn_description t p) (rows df)))
    ∧ sum_list tbl.*2
      = length (filter (has_key2 hsn_description) (rows df)).
Proof.
  intros Hd Hh Hc Hfull.
  unfold compute_product_trends. rewrite cache_data_full by done.
  unfold compute_product_trends_body.
  rewrite !getitem_Ok by done. cbn [mbind result_bind].
  eexists. split; [done|]. split; [|split].
  - unfold groupby_size. rewrite <-list_fmap_compose.
    rewrite (list_fmap_ext _ id (group_keys key2_leb (key2 hsn_description)
                                   (rows df))) by done.
    rewrite list_fmap_id. apply group_keys_NoDup.
  - intros t p n. unfold groupby_size. rewrite list_elem_of_fmap.
    rewrite <-group_key2, <-key2_group_keys. split.
    + by intros ([t' p'] & [= -> -> ->] & Hk).
    + intros [Hk ->]. by exists (t, p).
  - unfold groupby_size. rewrite <-list_fmap_compose.
    rewrite (list_fmap_ext _
               (λ k, length (filter (λ r, key2 hsn_description r = Some k)
                               (rows df)))
               (group_keys key2_leb (key2 hsn_description) (rows df)))
      by done.
    rewrite count_partition.
    + f_equal. apply list_filter_iff. intros r. apply key2_has_key2.
    + apply group_keys_NoDup.
    + intros r k Hr Hk. apply elem_of_group_keys. eauto.
Qed.

(** X14: a decorated function is transparent on a frame that is hashed in
    full: whatever calls have filled the cache, it returns what the
    function computes on that frame, the cache it leaves is again one that
    calls have filled, and calling it again returns the same. *)
Theorem cached_call_transparent {B} (f : DataFrame N → result B) df
    (c : Cache N B) :
  filled_by f c → hashed_in_full df →
  (cache_data f df c).1 = f df
  ∧ filled_by f (cache_data f df c).2
  ∧ (cache_data f df (cache_data f df c).2).1 = (cache_data f df c).1.
Proof.
  intros Hc Hfull.
  assert (filled_by f (cache_data f df c).2) as Hc' by (by apply filled_call).
  split; [by apply cache_data_full|]. split; [done|].
  by rewrite !cache_data_full.
Qed.

(** X15: on a view that is hashed in full, the unique product count is the
    number of distinct values of HSN_DESCRIPTION that occur in the view:
    the length of any list of its products without repetition, and 0 on the
    empty view. *)
Theorem total_products_counts_distinct df (c : Cache N nat) ps :
  HSN_DESCRIPTION ∈ columns df →
  filled_by compute_total_products_body c → hashed_in_full df →
  distinct_products df ps →
  (compute_total_products df c).1 = Ok (length ps)
  ∧ (rows df = [] → (compute_total_products df c).1 = Ok 0%nat).
Proof.
  intros Hh Hc Hfull Hps.
  unfold compute_total_products. rewrite cache_data_full by done.
  split; [by apply total_products_body|].
  intros Hrows. unfold compute_total_products_body.
  rewrite getitem_Ok by done. by rewrite Hrows.
Qed.

(** X16: for a non-empty Filtered View that is hashed in full, the
    daily-shipment-counts table has one row for every calendar day from
    the day of the earliest record to the day of the latest one, both
    included and in ascending order, each with the number of records of
    that day, which is 0 on a day without shipment. *)
Theorem daily_counts_cover_every_day df fs view
    (c : Cache N (list (Z * nat))) :
  main_filters df fs = Ok view → SB_DATE ∈ columns df → rows view ≠ [] →
  filled_by compute_shipment_counts_body c → hashed_in_full view →
  ∃ first last,
    first ≤ last
    ∧ (∃ r, r ∈ rows view ∧ on_day first r)
    ∧ (∃ r, r ∈ rows view ∧ on_day last r)
    ∧ (∀ r, r ∈ rows view → ∃ d, on_day d r ∧ first ≤ d ≤ last)
    ∧ (compute_shipment_counts view c).1 = Ok (daily_counts view first last)
    ∧ (daily_counts view first last).*1
      = to_datetime <$> seqZ first (last - first + 1)
    ∧ (∀ d, first ≤ d ≤ last → (∀ r, r ∈ rows view → ¬ on_day d r) →
         (to_datetime d, 0%nat) ∈ daily_counts view first last).
Proof.
  intros E Hd Hne Hc Hfull.
  destruct (shipment_counts_dated view) as (first & last & H1 & H2 & H3 & H4 & H5).
  { by rewrite (main_filters_columns _ _ _ E). }
  { done. }
  { intros r. by apply (main_filters_dated df fs). }
  exists first, last. do 4 (split; [done|]). split; [|split].
  - unfold compute_shipment_counts. by rewrite cache_data_full.
  - unfold daily_counts. rewrite <-list_fmap_compose.
    by apply list_fmap_ext.
  - intros d Hrange Hnone. unfold daily_counts.
    apply list_elem_of_fmap. exists d. split.
    + assert (filter (on_day d) (rows view) = []) as ->; [|done].
      apply elem_of_nil_inv. intros r [Hon Hr]%list_elem_of_filter.
      by apply (Hnone r).
    + apply elem_of_seqZ. lia.
Qed.

Lemma drop_missing_hashed_in_full df :
  hashed_in_full df → hashed_in_full (drop_missing_products df).
Proof.
  unfold hashed_in_full, drop_missing_products. cbn [rows].
  pose proof (length_filter with_product (rows df)). lia.
Qed.

(** X17: on a view that is hashed in full, the records whose
    HSN_DESCRIPTION is missing are excluded from the product aggregations:
    each of the four product tables and the unique product count are what
    they are on the view without these records, and every product of the
    top-products table is the product of a record. *)
Theorem missing_products_excluded df
    (c1 : Cache N (list (string * N))) (c2 : Cache N (list (string * nat)))
    (c3 : Cache N (list ((Z * string) * nat))) (c4 : Cache N nat) :
  filled_by compute_product_fob_body c1 →
  filled_by compute_product_counts_body c2 →
  filled_by compute_product_trends_body c3 →
  filled_by compute_total_products_body c4 →
  hashed_in_full df →
  (compute_product_fob (drop_missing_products df) c1).1
  = (compute_product_fob df c1).1
  ∧ (compute_product_counts (drop_missing_products df) c2).1
    = (compute_product_counts df c2).1
  ∧ (compute_product_trends (drop_missing_products df) c3).1
    = (compute_product_trends df c3).1
  ∧ quantity_data (drop_missing_products df) = quantity_data df
  ∧ (compute_total_products (drop_missing_products df) c4).1
    = (compute_total_products df c4).1
  ∧ (∀ tbl p, (compute_product_fob df c1).1 = Ok tbl → p ∈ tbl.*1 →
       is_product_of df p).
Proof.
  intros F1 F2 F3 F4 Hfull.
  pose proof (drop_missing_hashed_in_full df Hfull) as Hfull'.
  destruct (missing_products_excluded_body df)
    as (E1 & E2 & E3 & E4 & E5 & E6).
  unfold compute_product_fob, compute_product_counts, compute_product_trends,
    compute_total_products.
  rewrite !cache_data_full by done.
  by rewrite E1, E2, E3, E5.
Qed.

End count_tables.

Lemma daily_counts_total_witness :
  ∃ tbl, (compute_shipment_counts (sampler := first_rows) gap_days []).1
         = Ok tbl
    ∧ sum_list tbl.*2 = total_shipments gap_days.
Proof.
  apply (daily_counts_total (sampler := first_rows) gap_days []).
  - apply in_columns_true. vm_compute. reflexivity.
  - apply filled_nil.
  - vm_compute. reflexivity.
  - intros r Hr. simpl in Hr. rewrite !elem_of_cons, elem_of_nil in Hr.
    destruct Hr as [->|[->|[]]]; by eexists.
Defined.

Lemma product_counts_table_witness :
  ∃ tbl, (compute_product_counts (sampler := first_rows) gap_days []).1
         = Ok tbl
    ∧ length tbl = (10 `min` length ["tea"; "rice"]%string)%nat
    ∧ NoDup tbl.*1
    ∧ descending Nat.leb tbl
    ∧ (∀ p n, (p, n) ∈ tbl →
         is_product_of gap_days p
         ∧ n = length (filter (λ r, hsn_description r = Some p)
                         (rows gap_days))
         ∧ (1 ≤ n)%nat)
    ∧ (∀ p n q, (p, n) ∈ tbl → is_product_of gap_days q → q ∉ tbl.*1 →
         (length (filter (λ r, hsn_description r = Some q) (rows gap_days))
          ≤ n)%nat).
Proof.
  apply (product_counts_table (sampler := first_rows) gap_days []).
  - apply in_columns_true. vm_compute. reflexivity.
  - apply filled_nil.
  - vm_compute. reflexivity.
  - apply gap_days_products.
Defined.

Lemma product_trends_table_witness :
  ∃ tbl, (compute_product_trends (sampler := first_rows) same_day []).1
         = Ok tbl
    ∧ NoDup tbl.*1
    ∧ (∀ t p n, ((t, p), n) ∈ tbl ↔
         (∃ r, r ∈ rows same_day ∧ in_group2 hsn_description t p r)
         ∧ n = length (filter (in_group2 hsn_description t p)
                         (rows same_day)))
    ∧ sum_list tbl.*2
      = length (filter (has_key2 hsn_description) (rows same_day)).
Proof.
  apply (product_trends_table (sampler := first_rows) same_day []).
  - apply in_columns_true. vm_compute. reflexivity.
  - apply in_columns_true. vm_compute. reflexivity.
  - apply filled_nil.
  - vm_compute. reflexivity.
Defined.

Lemma cached_call_transparent_witness :
  (compute_total_products (sampler := first_rows) gap_days
     (compute_total_products (sampler := first_rows) two_days []).2).1
  = compute_total_products_body gap_days
  ∧ filled_by (sampler := first_rows) compute_total_products_body
      (compute_total_products (sampler := first_rows) gap_days
         (compute_total_products (sampler := first_rows) two_days []).2).2
  ∧ (compute_total_products (sampler := first_rows) gap_days
       (compute_total_products (sampler := first_rows) gap_days
          (compute_total_products (sampler := first_rows) two_days []).2).2).1
    = (compute_total_products (sampler := first_rows) gap_days
         (compute_total_products (sampler := first_rows) two_days []).2).1.
Proof.
  apply (cached_call_transparent (sampler := first_rows)
           compute_total_products_body gap_days).
  - apply filled_call, filled_nil.
  - vm_compute. reflexivity.
Defined.

Lemma total_products_counts_distinct_witness :
  (compute_total_products (sampler := first_rows) gap_days []).1 = Ok 2%nat
  ∧ (rows gap_days = [] →
     (compute_total_products (sampler := first_rows) gap_days []).1
     = Ok 0%nat).
Proof.
  apply (total_products_counts_distinct (sampler := first_rows) gap_days []
           ["tea"; "rice"]%string).
  - apply in_columns_true. vm_compute. reflexivity.
  - apply filled_nil.
  - vm_compute. reflexivity.
  - apply gap_days_products.
Defined.

Lemma daily_counts_cover_every_day_witness :
  ∃ first last,
    first ≤ last
    ∧ (∃ r, r ∈ rows gap_days ∧ on_day first r)
    ∧ (∃ r, r ∈ rows gap_days ∧ on_day last r)
    ∧ (∀ r, r ∈ rows gap_days → ∃ d, on_day d r ∧ first ≤ d ≤ last)
    ∧ (compute_shipment_counts (sampler := first_rows) gap_days []).1
      = Ok (daily_counts gap_days first last)
    ∧ (daily_counts gap_days first last).*1
      = to_datetime <$> seqZ first (last - first + 1)
    ∧ (∀ d, first ≤ d ≤ last → (∀ r, r ∈ rows gap_days → ¬ on_day d r) →
         (to_datetime d, 0%nat) ∈ daily_counts gap_days first last).
Proof.
  apply (daily_counts_cover_every_day (sampler := first_rows)
           gap_days wide_range gap_days []).
  - vm_compute. reflexivity.
  - apply in_columns_true. vm_compute. reflexivity.
  - discriminate.
  - apply filled_nil.
  - vm_compute. reflexivity.
Defined.

(** The day between the two shipments is in the table, with count 0. *)
Example daily_counts_gap_days :
  (compute_shipment_counts (sampler := first_rows) gap_days []).1
  = Ok [(to_datetime jan1, 1%nat); (to_datetime jan2, 0%nat);
        (to_datetime (jan2 + 1), 1%nat)].
Proof. vm_compute. reflexivity. Qed.

Lemma missing_products_excluded_witness :
  (compute_product_fob (sampler := first_rows)
     (drop_missing_products unlabelled_view) []).1
  = (compute_product_fob (sampler := first_rows) unlabelled_view []).1
  ∧ (compute_product_counts (sampler := first_rows)
       (drop_missing_products unlabelled_view) []).1
    = (compute_product_counts (sampler := first_rows) unlabelled_view []).1
  ∧ (compute_product_trends (sampler := first_rows)
       (drop_missing_products unlabelled_view) []).1
    = (compute_product_trends (sampler := first_rows) unlabelled_view []).1
  ∧ quantity_data (drop_missing_products unlabelled_view)
    = quantity_data unlabelled_view
  ∧ (compute_total_products (sampler := first_rows)
       (drop_missing_products unlabelled_view) []).1
    = (compute_total_products (sampler := first_rows) unlabelled_view []).1
  ∧ (∀ tbl p,
       (compute_product_fob (sampler := first_rows) unlabelled_view []).1
       = Ok tbl → p ∈ tbl.*1 → is_product_of unlabelled_view p).
Proof.
  apply (missing_products_excluded (sampler := first_rows) unlabelled_view
           [] [] [] []); [apply filled_nil..|].
  vm_compute. reflexivity.
Defined.
